(** * Orders microservice: the order orchestrator of [orders.service.ts]

    A shallow embedding of [OrdersService] (create, findAll, findOne,
    changeStatus, createPaymentSession, paidOrder) together with the three
    collaborators it talks to: the order store (the Prisma client), the
    product validator and the payment gateway (both behind
    [ClientProxy.send]).

    - An [async] method is a function from the world (store contents and
      the trace of calls made to collaborators) to an outcome and a new
      world.  A rejected promise or a thrown exception is [Throw].
    - Everything the service cannot decide by itself (what the remote side
      replies, the clock, the identifier the store draws for a new row) is
      read from an environment [Env].
    - JavaScript numbers that carry money (prices, [totalAmount]) are kept
      abstract: the service only uses the literal [0], [+] and [*] on them,
      and no law of arithmetic is assumed, so what is proved holds for
      IEEE doubles as well as for exact integers.  Counters (quantities,
      page numbers, row counts) are integers.
    - Writing to the logger and to the console, and connecting to the
      database when the module starts, are left out. *)

From Stdlib Require Import List String ZArith Lia Bool.
Import ListNotations.

Set Implicit Arguments.

Local Open Scope string_scope.
Local Open Scope Z_scope.

(** ** Numbers that carry money *)

(** The three operations [create] performs on prices: the initial
    accumulator [0], [acc + x] and [price * quantity]. *)
Class JsNumber (amount : Type) : Type := {
  amt_zero : amount;
  amt_add : amount -> amount -> amount;
  amt_mul : amount -> Z -> amount
}.

#[export] Instance Z_JsNumber : JsNumber Z := {
  amt_zero := 0;
  amt_add := Z.add;
  amt_mul := Z.mul
}.

(** Summation as [Array.prototype.reduce] performs it: left to right,
    starting from [0]. *)
Definition js_sum {amount : Type} {N : JsNumber amount} (xs : list amount) : amount :=
  fold_left amt_add xs amt_zero.

(** The usual sum of a list of integers. *)
Definition Zsum (xs : list Z) : Z := fold_right Z.add 0 xs.

(** ** Errors *)

(** Why the store refuses a call: no row under the identifier, a second
    row under a primary key, a second receipt for an order. *)
Inductive StoreFault : Type :=
| RecordNotFound
| UniqueConstraintViolation
| RelationViolation.

(** What a method can throw.  [RemoteError] is the value with which the
    observable returned by [client.send] fails; [TypeError] is raised by
    the runtime on reading a property of [undefined]; [RpcException] is
    the NestJS class, built either from an object literal or from a caught
    error. *)
Inductive Thrown : Type :=
| RemoteError (e : string)
| TypeError (message : string)
| PrismaError (fault : StoreFault)
| RpcException (error : RpcPayload)
with RpcPayload : Type :=
| ErrObject (status : Z) (message : string)
| ErrCaught (cause : Thrown).

(** [HttpStatus.NOT_FOUND] of [@nestjs/common]. *)
Definition HttpStatus_NOT_FOUND : Z := 404.

Definition undefined_price : Thrown :=
  TypeError "Cannot read properties of undefined (reading 'price')".

Definition undefined_name : Thrown :=
  TypeError "Cannot read properties of undefined (reading 'name')".

Inductive Outcome (A : Type) : Type :=
| Return (a : A)
| Throw (t : Thrown).

Arguments Return {A} a.
Arguments Throw {A} t.

(** ** Data *)

(** Modelled from the spec: the [OrderStatus] enumeration of the Prisma
    schema, which is not part of the sources: [PENDING] (initial), [PAID],
    and the delivery and cancellation states. *)
Inductive OrderStatus : Type :=
| PENDING
| PAID
| DELIVERED
| CANCELLED.

Definition OrderStatus_eqb (a b : OrderStatus) : bool :=
  match a, b with
  | PENDING, PENDING | PAID, PAID | DELIVERED, DELIVERED | CANCELLED, CANCELLED => true
  | _, _ => false
  end.

(** A record of the product validator's reply. *)
Record Product (amount : Type) : Type := {
  p_id : string;
  p_price : amount;
  p_name : string
}.

(** An item of [CreateOrderDto].  Modelled from the spec: the DTO classes
    are not part of the sources; an item carries [productId], [quantity]
    and a client-supplied [price]. *)
Record OrderItemDto (amount : Type) : Type := {
  it_productId : string;
  it_quantity : Z;
  it_price : amount
}.

Record CreateOrderDto (amount : Type) : Type := {
  items : list (OrderItemDto amount)
}.

(** An order item as selected by [select: { price, quantity, productId }]. *)
Record OrderItem (amount : Type) : Type := {
  oi_price : amount;
  oi_quantity : Z;
  oi_productId : string
}.

(** The same item with the product name spread in. *)
Record NamedItem (amount : Type) : Type := {
  ni_price : amount;
  ni_quantity : Z;
  ni_productId : string;
  ni_name : string
}.

Record OrderReceipt : Type := {
  receiptUrl : string
}.

(** The scalar fields of an order, which is what the store returns when no
    relation is included.  Modelled from the spec: the Prisma schema is not
    part of the sources; the fields are those of the spec's data model. *)
Record Order (amount : Type) : Type := {
  o_id : string;
  totalAmount : amount;
  totalItems : Z;
  status : OrderStatus;
  paid : bool;
  paidAt : option Z;
  stripeChargeId : option string;
  createdAt : Z
}.

(** An order with [include: { OrderItem: ... }]. *)
Record OrderWithItems (amount : Type) : Type := {
  owi_order : Order amount;
  owi_OrderItem : list (OrderItem amount)
}.

(** The interface [OrderWithProducts]: the order with named items. *)
Record OrderWithProducts (amount : Type) : Type := {
  owp_order : Order amount;
  owp_OrderItem : list (NamedItem amount)
}.

(** A row of the order table with the rows it owns: its items and at most
    one receipt (the relation is one-to-one). *)
Record OrderRow (amount : Type) : Type := {
  row_order : Order amount;
  row_OrderItem : list (OrderItem amount);
  row_OrderReceipt : option OrderReceipt
}.

(** The argument of [order.create]. *)
Record OrderCreateInput (amount : Type) : Type := {
  c_totalAmount : amount;
  c_totalItems : Z;
  c_OrderItem_createMany : list (OrderItem amount)
}.

(** The [data] argument of [order.update]: the fields to set, and
    optionally a nested creation of the receipt. *)
Record OrderUpdateInput : Type := {
  u_status : option OrderStatus;
  u_paid : option bool;
  u_paidAt : option Z;
  u_stripeChargeId : option string;
  u_OrderReceipt_create : option OrderReceipt
}.

Record OrderPaginationDto : Type := {
  page : Z;
  limit : Z;
  pg_status : option OrderStatus
}.

Record ChangeOrderStatusDto : Type := {
  cs_id : string;
  cs_status : OrderStatus
}.

Record PaidOrderDto : Type := {
  pd_orderId : string;
  pd_stripePaymentId : string;
  pd_receiptUrl : string
}.

Record PaymentItem (amount : Type) : Type := {
  pi_name : string;
  pi_price : amount;
  pi_quantity : Z
}.

(** The payload of ['create.payment.session']. *)
Record PaymentSessionRequest (amount : Type) : Type := {
  ps_orderId : string;
  ps_currency : string;
  ps_items : list (PaymentItem amount)
}.

Record PageMeta : Type := {
  m_page : Z;
  m_totalPages : Z;
  m_lastPage : Z
}.

Record OrderPage (amount : Type) : Type := {
  data : list (Order amount);
  meta : PageMeta
}.

(** What [changeStatus] returns: the decorated order of [findOne] when
    nothing changes, the bare updated record otherwise. *)
Inductive ChangeStatusResult (amount : Type) : Type :=
| Decorated (o : OrderWithProducts amount)
| Updated (o : Order amount).

(** ** The world *)

Inductive StoreOp : Type :=
| OpCreate
| OpCount
| OpFindMany
| OpFindFirst
| OpUpdate.

Definition is_write (op : StoreOp) : bool :=
  match op with
  | OpCreate | OpUpdate => true
  | OpCount | OpFindMany | OpFindFirst => false
  end.

(** A call made to a collaborator. *)
Inductive Event (amount : Type) : Type :=
| SendValidateProducts (productIds : list string)
| SendCreatePaymentSession (request : PaymentSessionRequest amount)
| StoreCall (op : StoreOp) (id : option string).

Arguments SendValidateProducts {amount} productIds.
Arguments StoreCall {amount} op id.

Record World (amount : Type) : Type := {
  db : list (OrderRow amount);
  trace : list (Event amount)
}.

Inductive Reply (A : Type) : Type :=
| Replied (a : A)
| Failed (e : string).

Arguments Replied {A} a.
Arguments Failed {A} e.

Record Env (amount : Type) : Type := {
  validate_products : list string -> Reply (list (Product amount));
  create_payment_session : PaymentSessionRequest amount -> Reply string;
  now : Z;
  uuid : string
}.

Definition is_store_write {amount : Type} (e : Event amount) : bool :=
  match e with
  | StoreCall op _ => is_write op
  | _ => false
  end.

Definition is_store_call {amount : Type} (e : Event amount) : bool :=
  match e with
  | StoreCall _ _ => true
  | _ => false
  end.

(** The payloads of the validation calls of a trace, in order. *)
Fixpoint validation_calls {amount : Type} (t : list (Event amount)) : list (list string) :=
  match t with
  | [] => []
  | SendValidateProducts ids :: t' => ids :: validation_calls t'
  | _ :: t' => validation_calls t'
  end.

(** The store writes of a trace. *)
Definition store_writes {amount : Type} (t : list (Event amount)) : list (Event amount) :=
  filter is_store_write t.

Definition empty_world (amount : Type) : World amount :=
  {| db := []; trace := [] |}.

(** ** Asynchronous computations *)

Definition Async (amount A : Type) : Type :=
  World amount -> Outcome A * World amount.

Definition ret {amount A : Type} (a : A) : Async amount A :=
  fun w => (Return a, w).

Definition throw {amount A : Type} (t : Thrown) : Async amount A :=
  fun w => (Throw t, w).

Definition bind {amount A B : Type} (m : Async amount A) (k : A -> Async amount B)
  : Async amount B :=
  fun w =>
    match m w with
    | (Return a, w') => k a w'
    | (Throw t, w') => (Throw t, w')
    end.

(** [try { m } catch (error) { h error }]. *)
Definition try_catch {amount A : Type} (m : Async amount A) (h : Thrown -> Async amount A)
  : Async amount A :=
  fun w =>
    match m w with
    | (Return a, w') => (Return a, w')
    | (Throw t, w') => h t w'
    end.

(** A synchronous computation that may throw, run inside a method. *)
Definition lift {amount A : Type} (r : Outcome A) : Async amount A :=
  fun w => (r, w).

Definition get_db {amount : Type} : Async amount (list (OrderRow amount)) :=
  fun w => (Return (db w), w).

Definition put_db {amount : Type} (rows : list (OrderRow amount)) : Async amount unit :=
  fun w => (Return tt, {| db := rows; trace := trace w |}).

Definition log {amount : Type} (e : Event amount) : Async amount unit :=
  fun w => (Return tt, {| db := db w; trace := trace w ++ [e] |}).

Declare Scope async_scope.
Delimit Scope async_scope with async.

Notation "x <- m ;; k" := (bind m (fun x => k))
  (at level 100, m at next level, right associativity) : async_scope.
Notation "m ;;; k" := (bind m (fun _ => k))
  (at level 100, right associativity) : async_scope.

Local Open Scope async_scope.

(** ** Synchronous list helpers that may throw *)

(** [xs.reduce(f, init)] with a callback that may throw. *)
Fixpoint reduce {A B : Type} (f : B -> A -> Outcome B) (xs : list A) (init : B) : Outcome B :=
  match xs with
  | [] => Return init
  | x :: xs' =>
      match f init x with
      | Return acc => reduce f xs' acc
      | Throw t => Throw t
      end
  end.

(** [xs.map(f)] with a callback that may throw. *)
Fixpoint map_throwing {A B : Type} (f : A -> Outcome B) (xs : list A) : Outcome (list B) :=
  match xs with
  | [] => Return []
  | x :: xs' =>
      match f x with
      | Return y =>
          match map_throwing f xs' with
          | Return ys => Return (y :: ys)
          | Throw t => Throw t
          end
      | Throw t => Throw t
      end
  end.

(** [products.find(product => product.id === productId)]. *)
Definition find_product {amount : Type} (products : list (Product amount)) (productId : string)
  : option (Product amount) :=
  find (fun product => String.eqb (p_id product) productId) products.

(** [products.find(...).price]: reading a property of [undefined] throws. *)
Definition price_of {amount : Type} (products : list (Product amount)) (productId : string)
  : Outcome amount :=
  match find_product products productId with
  | Some product => Return (p_price product)
  | None => Throw undefined_price
  end.

(** [products.find(...).name]. *)
Definition name_of {amount : Type} (products : list (Product amount)) (productId : string)
  : Outcome string :=
  match find_product products productId with
  | Some product => Return (p_name product)
  | None => Throw undefined_name
  end.

(** [{ ...orderItem, name: products.find(...).name }]. *)
Definition with_name {amount : Type} (products : list (Product amount)) (orderItem : OrderItem amount)
  : Outcome (NamedItem amount) :=
  match name_of products (oi_productId orderItem) with
  | Return name =>
      Return {| ni_price := oi_price orderItem;
                ni_quantity := oi_quantity orderItem;
                ni_productId := oi_productId orderItem;
                ni_name := name |}
  | Throw t => Throw t
  end.

(** The price the validator's reply gives for a product; only used for
    products that resolve. *)
Definition resolved_price {amount : Type} {N : JsNumber amount}
  (products : list (Product amount)) (productId : string) : amount :=
  match find_product products productId with
  | Some product => p_price product
  | None => amt_zero
  end.

Definition resolved_name {amount : Type} (products : list (Product amount)) (productId : string)
  : string :=
  match find_product products productId with
  | Some product => p_name product
  | None => ""
  end.

(** Every item of the list names a product of the reply. *)
Definition all_resolve {amount A : Type} (products : list (Product amount))
  (productId : A -> string) (xs : list A) : Prop :=
  forall x, In x xs -> find_product products (productId x) <> None.

(** ** The order store

    Modelled from the spec: the store is the Prisma client over a schema
    that is not part of the sources.  The table is the list of its rows in
    insertion order.  [id] is the primary key, so an insertion under an
    identifier already present is refused; an order owns at most one
    receipt, so the nested creation of a second receipt is refused; a
    refused call leaves the table as it was (the store is transactional). *)

Definition find_row {amount : Type} (id : string) (rows : list (OrderRow amount))
  : option (OrderRow amount) :=
  find (fun r => String.eqb (o_id (row_order r)) id) rows.

(** [where: { status }]: an [undefined] status does not filter. *)
Definition matches_status {amount : Type} (st : option OrderStatus) (r : OrderRow amount) : bool :=
  match st with
  | None => true
  | Some s => OrderStatus_eqb (status (row_order r)) s
  end.

Fixpoint update_row {amount : Type} (id : string) (f : OrderRow amount -> OrderRow amount)
  (rows : list (OrderRow amount)) : list (OrderRow amount) :=
  match rows with
  | [] => []
  | r :: rows' =>
      if String.eqb (o_id (row_order r)) id then f r :: rows'
      else r :: update_row id f rows'
  end.

Definition or_keep {A : Type} (new : option A) (old : A) : A :=
  match new with
  | Some a => a
  | None => old
  end.

Definition or_keep_opt {A : Type} (new : option A) (old : option A) : option A :=
  match new with
  | Some a => Some a
  | None => old
  end.

Definition apply_update {amount : Type} (d : OrderUpdateInput) (r : OrderRow amount)
  : OrderRow amount :=
  {| row_order :=
       {| o_id := o_id (row_order r);
          totalAmount := totalAmount (row_order r);
          totalItems := totalItems (row_order r);
          status := or_keep (u_status d) (status (row_order r));
          paid := or_keep (u_paid d) (paid (row_order r));
          paidAt := or_keep_opt (u_paidAt d) (paidAt (row_order r));
          stripeChargeId := or_keep_opt (u_stripeChargeId d) (stripeChargeId (row_order r));
          createdAt := createdAt (row_order r) |};
     row_OrderItem := row_OrderItem r;
     row_OrderReceipt := or_keep_opt (u_OrderReceipt_create d) (row_OrderReceipt r) |}.

Definition new_row {amount : Type} (env : Env amount) (input : OrderCreateInput amount)
  : OrderRow amount :=
  {| row_order :=
       {| o_id := uuid env;
          totalAmount := c_totalAmount input;
          totalItems := c_totalItems input;
          status := PENDING;
          paid := false;
          paidAt := None;
          stripeChargeId := None;
          createdAt := now env |};
     row_OrderItem := c_OrderItem_createMany input;
     row_OrderReceipt := None |}.

Definition included {amount : Type} (r : OrderRow amount) : OrderWithItems amount :=
  {| owi_order := row_order r; owi_OrderItem := row_OrderItem r |}.

Section Service.

Context {amount : Type} {N : JsNumber amount}.
Variable env : Env amount.

(** [this.order.create({ data, include: { OrderItem } })]. *)
Definition order_create (input : OrderCreateInput amount) : Async amount (OrderWithItems amount) :=
  log (StoreCall OpCreate None) ;;;
  rows <- get_db ;;
  match find_row (uuid env) rows with
  | Some _ => throw (PrismaError UniqueConstraintViolation)
  | None =>
      put_db (rows ++ [new_row env input]) ;;;
      ret (included (new_row env input))
  end.

(** [this.order.count({ where: { status } })]. *)
Definition order_count (st : option OrderStatus) : Async amount Z :=
  log (StoreCall OpCount None) ;;;
  rows <- get_db ;;
  ret (Z.of_nat (List.length (filter (matches_status st) rows))).

(** [this.order.findMany({ take, skip, where: { status } })]. *)
Definition order_findMany (take skip : Z) (st : option OrderStatus)
  : Async amount (list (Order amount)) :=
  log (StoreCall OpFindMany None) ;;;
  rows <- get_db ;;
  ret (map (@row_order amount)
         (firstn (Z.to_nat take) (skipn (Z.to_nat skip) (filter (matches_status st) rows)))).

(** [this.order.findFirst({ where: { id }, include: { OrderItem } })]. *)
Definition order_findFirst (id : string) : Async amount (option (OrderWithItems amount)) :=
  log (StoreCall OpFindFirst (Some id)) ;;;
  rows <- get_db ;;
  ret (option_map (@included amount) (find_row id rows)).

(** [this.order.update({ where: { id }, data })]. *)
Definition order_update (id : string) (d : OrderUpdateInput) : Async amount (Order amount) :=
  log (StoreCall OpUpdate (Some id)) ;;;
  rows <- get_db ;;
  match find_row id rows with
  | None => throw (PrismaError RecordNotFound)
  | Some r =>
      match u_OrderReceipt_create d, row_OrderReceipt r with
      | Some _, Some _ => throw (PrismaError RelationViolation)
      | _, _ =>
          put_db (update_row id (apply_update d) rows) ;;;
          ret (row_order (apply_update d r))
      end
  end.

(** ** The remote collaborators *)

(** [firstValueFrom(this.client.send({ cmd: 'validate_products' }, productIds))]. *)
Definition send_validate_products (productIds : list string)
  : Async amount (list (Product amount)) :=
  log (SendValidateProducts productIds) ;;;
  match validate_products env productIds with
  | Replied products => ret products
  | Failed e => throw (RemoteError e)
  end.

(** [firstValueFrom(this.client.send('create.payment.session', request)
      .pipe(catchError(err => { throw new RpcException(err) })))]. *)
Definition send_create_payment_session (request : PaymentSessionRequest amount)
  : Async amount string :=
  log (SendCreatePaymentSession request) ;;;
  match create_payment_session env request with
  | Replied session => ret session
  | Failed e => throw (RpcException (ErrCaught (RemoteError e)))
  end.

(** ** The service *)

(** The callback of the reduction that computes [totalAmount]. *)
Definition amount_step (products : list (Product amount))
  (acc : amount) (orderItem : OrderItemDto amount) : Outcome amount :=
  match price_of products (it_productId orderItem) with
  | Return price => Return (amt_add acc (amt_mul price (it_quantity orderItem)))
  | Throw t => Throw t
  end.

(** The callback that builds the rows handed to [createMany]. *)
Definition row_step (products : list (Product amount))
  (orderItem : OrderItemDto amount) : Outcome (OrderItem amount) :=
  match price_of products (it_productId orderItem) with
  | Return price =>
      Return {| oi_price := price;
                oi_quantity := it_quantity orderItem;
                oi_productId := it_productId orderItem |}
  | Throw t => Throw t
  end.

Definition create (createOrderDto : CreateOrderDto amount)
  : Async amount (OrderWithProducts amount) :=
  try_catch
    (let productIds := map (@it_productId amount) (items createOrderDto) in
     products <- send_validate_products productIds ;;
     totalAmount <- lift (reduce (amount_step products) (items createOrderDto) amt_zero) ;;
     let totalItems :=
       fold_left (fun acc orderItem => acc + it_quantity orderItem) (items createOrderDto) 0 in
     rows <- lift (map_throwing (row_step products) (items createOrderDto)) ;;
     order <- order_create {| c_totalAmount := totalAmount;
                              c_totalItems := totalItems;
                              c_OrderItem_createMany := rows |} ;;
     named <- lift (map_throwing (with_name products) (owi_OrderItem order)) ;;
     ret {| owp_order := owi_order order; owp_OrderItem := named |})
    (fun error => throw (RpcException (ErrCaught error))).

(** [Math.ceil(total / limit)] on integers, for a positive [limit], the only
    kind the pagination DTO lets through. *)
Definition Math_ceil_div (total limit : Z) : Z :=
  let (q, r) := Z.div_eucl total limit in
  if r =? 0 then q else q + 1.

Definition findAll (paginationDto : OrderPaginationDto) : Async amount (OrderPage amount) :=
  totalPages <- order_count (pg_status paginationDto) ;;
  let lastPage := Math_ceil_div totalPages (limit paginationDto) in
  orders <- order_findMany (limit paginationDto)
              ((page paginationDto - 1) * limit paginationDto)
              (pg_status paginationDto) ;;
  ret {| data := orders;
         meta := {| m_page := page paginationDto;
                    m_totalPages := totalPages;
                    m_lastPage := lastPage |} |}.

Definition not_found (id : string) : Thrown :=
  RpcException (ErrObject HttpStatus_NOT_FOUND ("Order with id [" ++ id ++ "] not found")).

Definition findOne (id : string) : Async amount (OrderWithProducts amount) :=
  found <- order_findFirst id ;;
  match found with
  | None => throw (not_found id)
  | Some order =>
      let productIds := map (@oi_productId amount) (owi_OrderItem order) in
      products <- send_validate_products productIds ;;
      named <- lift (map_throwing (with_name products) (owi_OrderItem order)) ;;
      ret {| owp_order := owi_order order; owp_OrderItem := named |}
  end.

Definition changeStatus (changeOrderStatusDto : ChangeOrderStatusDto)
  : Async amount (ChangeStatusResult amount) :=
  let id := cs_id changeOrderStatusDto in
  let st := cs_status changeOrderStatusDto in
  order <- findOne id ;;
  if OrderStatus_eqb (status (owp_order order)) st then ret (Decorated order)
  else
    updated <- order_update id {| u_status := Some st;
                                  u_paid := None;
                                  u_paidAt := None;
                                  u_stripeChargeId := None;
                                  u_OrderReceipt_create := None |} ;;
    ret (Updated updated).

(** The outer [try]/[catch] logs to the console and rethrows the error
    unchanged. *)
Definition createPaymentSession (order : OrderWithProducts amount) : Async amount string :=
  try_catch
    (paymentSession <- send_create_payment_session
                         {| ps_orderId := o_id (owp_order order);
                            ps_currency := "usd";
                            ps_items := map (fun item => {| pi_name := ni_name item;
                                                            pi_price := ni_price item;
                                                            pi_quantity := ni_quantity item |})
                                          (owp_OrderItem order) |} ;;
     ret paymentSession)
    (fun error => throw error).

Definition paidOrder (paidOrderDto : PaidOrderDto) : Async amount (Order amount) :=
  order <- order_update (pd_orderId paidOrderDto)
             {| u_status := Some PAID;
                u_paid := Some true;
                u_paidAt := Some (now env);
                u_stripeChargeId := Some (pd_stripePaymentId paidOrderDto);
                u_OrderReceipt_create := Some {| receiptUrl := pd_receiptUrl paidOrderDto |} |} ;;
  ret order.

End Service.

(** ** Requests and reachable worlds *)

Inductive Request (amount : Type) : Type :=
| ReqCreate (dto : CreateOrderDto amount)
| ReqFindAll (dto : OrderPaginationDto)
| ReqFindOne (id : string)
| ReqChangeStatus (dto : ChangeOrderStatusDto)
| ReqCreatePaymentSession (order : OrderWithProducts amount)
| ReqPaidOrder (dto : PaidOrderDto).

Arguments ReqFindAll {amount} dto.
Arguments ReqFindOne {amount} id.
Arguments ReqChangeStatus {amount} dto.
Arguments ReqPaidOrder {amount} dto.

(** The world after the service has handled a request. *)
Definition serve {amount : Type} {N : JsNumber amount} (env : Env amount)
  (req : Request amount) (w : World amount) : World amount :=
  match req with
  | ReqCreate dto => snd (create env dto w)
  | ReqFindAll dto => snd (findAll dto w)
  | ReqFindOne id => snd (findOne env id w)
  | ReqChangeStatus dto => snd (changeStatus env dto w)
  | ReqCreatePaymentSession order => snd (createPaymentSession env order w)
  | ReqPaidOrder dto => snd (paidOrder env dto w)
  end.

(** The worlds the service can bring about from an empty store, whatever
    the collaborators reply along the way. *)
Inductive reachable {amount : Type} {N : JsNumber amount} : World amount -> Prop :=
| reachable_start : reachable (empty_world amount)
| reachable_step (env : Env amount) (req : Request amount) (w : World amount) :
    reachable w -> reachable (serve env req w).

(** An order is flagged paid exactly when it has its receipt. *)
Definition paid_iff_receipt {amount : Type} (r : OrderRow amount) : Prop :=
  paid (row_order r) = true <-> row_OrderReceipt r <> None.

(** Two rows agree on everything but, possibly, the status. *)
Definition same_but_status {amount : Type} (r r' : OrderRow amount) : Prop :=
  o_id (row_order r') = o_id (row_order r) /\
  totalAmount (row_order r') = totalAmount (row_order r) /\
  totalItems (row_order r') = totalItems (row_order r) /\
  paid (row_order r') = paid (row_order r) /\
  paidAt (row_order r') = paidAt (row_order r) /\
  stripeChargeId (row_order r') = stripeChargeId (row_order r) /\
  createdAt (row_order r') = createdAt (row_order r) /\
  row_OrderItem r' = row_OrderItem r /\
  row_OrderReceipt r' = row_OrderReceipt r.

(** Two rows agree on everything that paid finalization leaves alone. *)
Definition same_but_payment {amount : Type} (r r' : OrderRow amount) : Prop :=
  o_id (row_order r') = o_id (row_order r) /\
  totalAmount (row_order r') = totalAmount (row_order r) /\
  totalItems (row_order r') = totalItems (row_order r) /\
  createdAt (row_order r') = createdAt (row_order r) /\
  row_OrderItem r' = row_OrderItem r.

(** The item of an order as [findOne] and [create] hand it out. *)
Definition named_item {amount : Type} (products : list (Product amount))
  (orderItem : OrderItem amount) : NamedItem amount :=
  {| ni_price := oi_price orderItem;
     ni_quantity := oi_quantity orderItem;
     ni_productId := oi_productId orderItem;
     ni_name := resolved_name products (oi_productId orderItem) |}.

(** The item [create] persists for a requested item. *)
Definition priced_item {amount : Type} {N : JsNumber amount} (products : list (Product amount))
  (orderItem : OrderItemDto amount) : OrderItem amount :=
  {| oi_price := resolved_price products (it_productId orderItem);
     oi_quantity := it_quantity orderItem;
     oi_productId := it_productId orderItem |}.

(** The spec's total: the sum over the items of resolved price times
    quantity. *)
Definition spec_totalAmount {amount : Type} {N : JsNumber amount}
  (products : list (Product amount)) (xs : list (OrderItemDto amount)) : amount :=
  js_sum (map (fun orderItem =>
                 amt_mul (resolved_price products (it_productId orderItem))
                         (it_quantity orderItem)) xs).

(** The spec's item count: the sum of the quantities. *)
Definition spec_totalItems {amount : Type} (xs : list (OrderItemDto amount)) : Z :=
  Zsum (map (@it_quantity amount) xs).

(** What [create] hands to the store when every product resolves. *)
Definition create_input {amount : Type} {N : JsNumber amount}
  (products : list (Product amount)) (dto : CreateOrderDto amount) : OrderCreateInput amount :=
  {| c_totalAmount := spec_totalAmount products (items dto);
     c_totalItems := spec_totalItems (items dto);
     c_OrderItem_createMany := map (priced_item products) (items dto) |}.

(** The stored item under a named item. *)
Definition strip_name {amount : Type} (item : NamedItem amount) : OrderItem amount :=
  {| oi_price := ni_price item;
     oi_quantity := ni_quantity item;
     oi_productId := ni_productId item |}.

(** The world [findOne] leaves behind when it has found the row [r]: one
    read of the store and one validation call. *)
Definition after_findOne {amount : Type} (id : string) (r : OrderRow amount) (w : World amount)
  : World amount :=
  {| db := db w;
     trace := (trace w ++ [StoreCall OpFindFirst (Some id)])
              ++ [SendValidateProducts (map (@oi_productId amount) (row_OrderItem r))] |}.

(** The [data] of the update [changeStatus] issues. *)
Definition status_data (st : OrderStatus) : OrderUpdateInput :=
  {| u_status := Some st;
     u_paid := None;
     u_paidAt := None;
     u_stripeChargeId := None;
     u_OrderReceipt_create := None |}.

(** The [data] of the update [paidOrder] issues. *)
Definition paid_data (time : Z) (dto : PaidOrderDto) : OrderUpdateInput :=
  {| u_status := Some PAID;
     u_paid := Some true;
     u_paidAt := Some time;
     u_stripeChargeId := Some (pd_stripePaymentId dto);
     u_OrderReceipt_create := Some {| receiptUrl := pd_receiptUrl dto |} |}.

(** ** A small shop, for running the service *)

Definition shop_products : list (Product Z) :=
  [ {| p_id := "A"; p_price := 10; p_name := "Apple" |};
    {| p_id := "B"; p_price := 5; p_name := "Bread" |} ].

(** A validator that knows the shop's products and leaves unknown
    identifiers out of its reply. *)
Definition shop_validator (productIds : list string) : Reply (list (Product Z)) :=
  Replied (filter (fun product => existsb (String.eqb (p_id product)) productIds) shop_products).

Definition shop_env (id : string) (time : Z) : Env Z :=
  {| validate_products := shop_validator;
     create_payment_session := fun _ => Replied "cs_test_1";
     now := time;
     uuid := id |}.

(** The same shop while the validator and the gateway are failing. *)
Definition outage_env (id : string) (time : Z) : Env Z :=
  {| validate_products := fun _ => Failed "validator unavailable";
     create_payment_session := fun _ => Failed "gateway unavailable";
     now := time;
     uuid := id |}.

(** Two apples and one bread; the client claims prices of its own. *)
Definition dto_apples_bread : CreateOrderDto Z :=
  {| items := [ {| it_productId := "A"; it_quantity := 2; it_price := 1 |};
                {| it_productId := "B"; it_quantity := 1; it_price := 0 |} ] |}.

(** The same product on two lines. *)
Definition dto_apples_twice : CreateOrderDto Z :=
  {| items := [ {| it_productId := "A"; it_quantity := 1; it_price := 10 |};
                {| it_productId := "A"; it_quantity := 2; it_price := 10 |} ] |}.

(** One known and one unknown product. *)
Definition dto_unknown : CreateOrderDto Z :=
  {| items := [ {| it_productId := "A"; it_quantity := 1; it_price := 10 |};
                {| it_productId := "Z"; it_quantity := 4; it_price := 3 |} ] |}.

(** The store after one order has been created. *)
Definition world_one_order : World Z :=
  snd (create (shop_env "order-1" 1000) dto_apples_bread (empty_world Z)).

(** The store after that order has been paid. *)
Definition world_one_paid : World Z :=
  snd (paidOrder (shop_env "unused" 2000)
         {| pd_orderId := "order-1"; pd_stripePaymentId := "ch_1"; pd_receiptUrl := "https://pay/r1" |}
         world_one_order).

(** A store of [n] pending orders, lettered downwards from the [n]-th letter. *)
Fixpoint pending_rows (n : nat) : list (OrderRow Z) :=
  match n with
  | O => []
  | S k =>
      {| row_order := {| o_id := String (Ascii.ascii_of_nat (64 + n)) "";
                         totalAmount := 0;
                         totalItems := 0;
                         status := PENDING;
                         paid := false;
                         paidAt := None;
                         stripeChargeId := None;
                         createdAt := Z.of_nat n |};
         row_OrderItem := [];
         row_OrderReceipt := None |} :: pending_rows k
  end.

Definition world_25_pending : World Z :=
  {| db := pending_rows 25; trace := [] |}.

(** ** Further notions, for the properties of the whole service *)

(** The named item [create] returns for a requested item. *)
Definition created_item {amount : Type} {N : JsNumber amount} (products : list (Product amount))
  (orderItem : OrderItemDto amount) : NamedItem amount :=
  {| ni_price := resolved_price products (it_productId orderItem);
     ni_quantity := it_quantity orderItem;
     ni_productId := it_productId orderItem;
     ni_name := resolved_name products (it_productId orderItem) |}.

(** The totals of a row are those of its items. *)
Definition totals_consistent {amount : Type} {N : JsNumber amount} (r : OrderRow amount) : Prop :=
  totalAmount (row_order r) =
    js_sum (map (fun item => amt_mul (oi_price item) (oi_quantity item)) (row_OrderItem r)) /\
  totalItems (row_order r) = Zsum (map (@oi_quantity amount) (row_OrderItem r)).

(** The payment time and the payment reference are on a row exactly when
    it is flagged paid. *)
Definition payment_recorded {amount : Type} (r : OrderRow amount) : Prop :=
  (paid (row_order r) = true <-> paidAt (row_order r) <> None) /\
  (paid (row_order r) = true <-> stripeChargeId (row_order r) <> None).

(** Handling a sequence of requests, each in the environment it meets. *)
Fixpoint serve_all {amount : Type} {N : JsNumber amount}
  (steps : list (Env amount * Request amount)) (w : World amount) : World amount :=
  match steps with
  | [] => w
  | (env, req) :: rest => serve_all rest (serve env req w)
  end.

(** A call that leaves the process: to the validator or to the gateway. *)
Definition is_remote_call {amount : Type} (e : Event amount) : bool :=
  match e with
  | SendValidateProducts _ => true
  | SendCreatePaymentSession _ => true
  | StoreCall _ _ => false
  end.

(** The request [createPaymentSession] builds for an order. *)
Definition payment_request {amount : Type} (order : OrderWithProducts amount)
  : PaymentSessionRequest amount :=
  {| ps_orderId := o_id (owp_order order);
     ps_currency := "usd";
     ps_items := map (fun item => {| pi_name := ni_name item;
                                     pi_price := ni_price item;
                                     pi_quantity := ni_quantity item |})
                   (owp_OrderItem order) |}.

(** The rows [findAll] hands out for a page; [findAll] never throws. *)
Definition page_data {amount : Type} (w : World amount) (st : option OrderStatus)
  (lim p : Z) : list (Order amount) :=
  match fst (findAll {| page := p; limit := lim; pg_status := st |} w) with
  | Return result => data result
  | Throw _ => []
  end.

(** The pages from [first] on, [count] of them, one after the other. *)
Fixpoint pages_from {amount : Type} (w : World amount) (st : option OrderStatus)
  (lim first : Z) (count : nat) : list (Order amount) :=
  match count with
  | O => []
  | S k => page_data w st lim first ++ pages_from w st lim (first + 1) k
  end.

(** The four ways [create] can go. *)
Inductive create_path {amount : Type} {N : JsNumber amount} (env : Env amount)
  (dto : CreateOrderDto amount) (w : World amount) : Prop :=
| path_validator_failed (e : string) :
    validate_products env (map (@it_productId amount) (items dto)) = Failed e ->
    create_path env dto w
| path_unresolved (products : list (Product amount)) :
    validate_products env (map (@it_productId amount) (items dto)) = Replied products ->
    (exists x, In x (items dto) /\ find_product products (it_productId x) = None) ->
    create_path env dto w
| path_collision (products : list (Product amount)) (r : OrderRow amount) :
    validate_products env (map (@it_productId amount) (items dto)) = Replied products ->
    all_resolve products (@it_productId amount) (items dto) ->
    find_row (uuid env) (db w) = Some r ->
    create_path env dto w
| path_created (products : list (Product amount)) :
    validate_products env (map (@it_productId amount) (items dto)) = Replied products ->
    all_resolve products (@it_productId amount) (items dto) ->
    find_row (uuid env) (db w) = None ->
    create_path env dto w.

(** A validator that replies with a fixed list of products. *)
Definition fixed_env (products : list (Product Z)) (id : string) (time : Z) : Env Z :=
  {| validate_products := fun _ => Replied products;
     create_payment_session := fun _ => Replied "cs_test_1";
     now := time;
     uuid := id |}.

(** * Properties *)

Unset Implicit Arguments.

Local Open Scope list_scope.
Local Open Scope async_scope.

(** Unfolds the plumbing of [Async], leaving the service's own steps. *)
Ltac run :=
  unfold bind, ret, throw, lift, log, get_db, put_db, try_catch; cbn [fst snd db trace].

(** ** Sums *)

Lemma fold_left_add_Zsum {A : Type} (q : A -> Z) (xs : list A) (init : Z) :
  fold_left (fun acc x => acc + q x) xs init = init + Zsum (map q xs).
Proof.
  unfold Zsum.
  revert init; induction xs as [|x xs IH]; intros init; cbn [fold_left map fold_right].
  - lia.
  - rewrite IH. lia.
Qed.

Lemma js_sum_Z (xs : list Z) : js_sum xs = Zsum xs.
Proof.
  unfold js_sum. cbn [amt_zero amt_add Z_JsNumber].
  assert (G : forall init, fold_left Z.add xs init = init + Zsum xs).
  { unfold Zsum.
    induction xs as [|x xs IH]; intros init; cbn [fold_left fold_right];
      [lia | rewrite IH; lia]. }
  now rewrite G.
Qed.

(** On integers the spec's total is the usual sum. *)
Lemma spec_totalAmount_Z (products : list (Product Z)) (xs : list (OrderItemDto Z)) :
  spec_totalAmount products xs =
  Zsum (map (fun orderItem =>
               resolved_price products (it_productId orderItem) * it_quantity orderItem) xs).
Proof. unfold spec_totalAmount. now rewrite js_sum_Z. Qed.

(** ** Looking products up *)

Section Lookup.

Context {amount : Type} {N : JsNumber amount}.
Variable products : list (Product amount).

Lemma price_of_resolved (productId : string) :
  find_product products productId <> None ->
  price_of products productId = Return (resolved_price products productId).
Proof.
  unfold price_of, resolved_price.
  destruct (find_product products productId); congruence.
Qed.

Lemma name_of_resolved (productId : string) :
  find_product products productId <> None ->
  name_of products productId = Return (resolved_name products productId).
Proof.
  unfold name_of, resolved_name.
  destruct (find_product products productId); congruence.
Qed.

Lemma all_resolve_cons {A : Type} (f : A -> string) (x : A) (xs : list A) :
  all_resolve products f (x :: xs) ->
  find_product products (f x) <> None /\ all_resolve products f xs.
Proof.
  intros H; split; [apply H; now left | intros y Hy; apply H; now right].
Qed.

Lemma all_resolve_priced (xs : list (OrderItemDto amount)) :
  all_resolve products (@it_productId amount) xs ->
  all_resolve products (@oi_productId amount) (map (priced_item products) xs).
Proof.
  intros H oi Hin. apply in_map_iff in Hin as (x & <- & Hx). cbn. now apply H.
Qed.

Lemma reduce_resolved (xs : list (OrderItemDto amount)) (init : amount) :
  all_resolve products (@it_productId amount) xs ->
  reduce (amount_step products) xs init =
  Return (fold_left amt_add
            (map (fun orderItem =>
                    amt_mul (resolved_price products (it_productId orderItem))
                            (it_quantity orderItem)) xs) init).
Proof.
  revert init; induction xs as [|x xs IH]; intros init H; cbn; [reflexivity|].
  apply all_resolve_cons in H as [Hx Hxs].
  unfold amount_step at 1. rewrite price_of_resolved by exact Hx. now apply IH.
Qed.

Lemma reduce_unresolved (xs : list (OrderItemDto amount)) (init : amount) :
  (exists x, In x xs /\ find_product products (it_productId x) = None) ->
  reduce (amount_step products) xs init = Throw undefined_price.
Proof.
  revert init; induction xs as [|x xs IH]; intros init (y & Hin & Hy); [destruct Hin|].
  cbn. unfold amount_step at 1, price_of.
  destruct (find_product products (it_productId x)) as [p|] eqn:E; [|reflexivity].
  destruct Hin as [-> | Hin]; [congruence|].
  apply IH. now exists y.
Qed.

Lemma rows_resolved (xs : list (OrderItemDto amount)) :
  all_resolve products (@it_productId amount) xs ->
  map_throwing (row_step products) xs = Return (map (priced_item products) xs).
Proof.
  induction xs as [|x xs IH]; intros H; cbn; [reflexivity|].
  apply all_resolve_cons in H as [Hx Hxs].
  unfold row_step at 1. rewrite price_of_resolved by exact Hx. rewrite IH by exact Hxs. reflexivity.
Qed.

Lemma names_resolved (xs : list (OrderItem amount)) :
  all_resolve products (@oi_productId amount) xs ->
  map_throwing (with_name products) xs = Return (map (named_item products) xs).
Proof.
  induction xs as [|x xs IH]; intros H; cbn; [reflexivity|].
  apply all_resolve_cons in H as [Hx Hxs].
  unfold with_name at 1. rewrite name_of_resolved by exact Hx. rewrite IH by exact Hxs. reflexivity.
Qed.

(** A decoration that returns has named every item; nothing else about
    the items changes. *)
Lemma names_returned (xs : list (OrderItem amount)) (named : list (NamedItem amount)) :
  map_throwing (with_name products) xs = Return named ->
  named = map (named_item products) xs.
Proof.
  revert named; induction xs as [|x xs IH]; intros named; cbn.
  - now intros [= <-].
  - unfold with_name at 1, name_of, named_item at 1, resolved_name.
    destruct (find_product products (oi_productId x)); [|discriminate].
    destruct (map_throwing (with_name products) xs) as [ys|]; [|discriminate].
    intros [= <-]. now rewrite (IH ys eq_refl).
Qed.

End Lookup.

(** ** Rows *)

Lemma Forall2_diag {A : Type} (R : A -> A -> Prop) (l : list A) :
  (forall x, R x x) -> Forall2 R l l.
Proof. intros H. induction l; constructor; auto. Qed.

Lemma find_row_app {amount : Type} (id : string) (rows rows' : list (OrderRow amount)) :
  find_row id (rows ++ rows') =
  match find_row id rows with
  | Some r => Some r
  | None => find_row id rows'
  end.
Proof.
  unfold find_row. induction rows as [|r rows IH]; cbn; [reflexivity|].
  now destruct (String.eqb (o_id (row_order r)) id).
Qed.

Lemma find_row_id {amount : Type} (id : string) (rows : list (OrderRow amount))
  (r : OrderRow amount) :
  find_row id rows = Some r -> o_id (row_order r) = id.
Proof.
  unfold find_row. intros H. apply find_some in H as [_ H]. now apply String.eqb_eq.
Qed.

(** ** create *)

Section Create.

Context {amount : Type} {N : JsNumber amount}.
Variable env : Env amount.

(** [create] on the path where the validator replies and resolves every
    item, and the store accepts the new row. *)
Lemma create_resolved (dto : CreateOrderDto amount) (w : World amount)
  (products : list (Product amount)) :
  validate_products env (map (@it_productId amount) (items dto)) = Replied products ->
  all_resolve products (@it_productId amount) (items dto) ->
  find_row (uuid env) (db w) = None ->
  create env dto w =
  (Return {| owp_order := row_order (new_row env (create_input products dto));
             owp_OrderItem :=
               map (named_item products) (map (priced_item products) (items dto)) |},
   {| db := db w ++ [new_row env (create_input products dto)];
      trace := trace w ++ [SendValidateProducts (map (@it_productId amount) (items dto))]
                       ++ [StoreCall OpCreate None] |}).
Proof.
  intros Hv Hres Hfresh.
  unfold create, send_validate_products, order_create. run. rewrite Hv. run.
  rewrite reduce_resolved by exact Hres.
  rewrite rows_resolved by exact Hres. rewrite Hfresh. cbn.
  rewrite fold_left_add_Zsum, Z.add_0_l.
  rewrite names_resolved by (apply all_resolve_priced; exact Hres).
  rewrite <- app_assoc. reflexivity.
Qed.

(** [create] when some item names a product the reply lacks. *)
Lemma create_unresolved (dto : CreateOrderDto amount) (w : World amount)
  (products : list (Product amount)) :
  validate_products env (map (@it_productId amount) (items dto)) = Replied products ->
  (exists x, In x (items dto) /\ find_product products (it_productId x) = None) ->
  create env dto w =
  (Throw (RpcException (ErrCaught undefined_price)),
   {| db := db w;
      trace := trace w ++ [SendValidateProducts (map (@it_productId amount) (items dto))] |}).
Proof.
  intros Hv Hmiss.
  unfold create, send_validate_products. run. rewrite Hv. run.
  rewrite reduce_unresolved by exact Hmiss. reflexivity.
Qed.

(** [create] when the validator fails. *)
Lemma create_validator_failed (dto : CreateOrderDto amount) (w : World amount) (e : string) :
  validate_products env (map (@it_productId amount) (items dto)) = Failed e ->
  create env dto w =
  (Throw (RpcException (ErrCaught (RemoteError e))),
   {| db := db w;
      trace := trace w ++ [SendValidateProducts (map (@it_productId amount) (items dto))] |}).
Proof.
  intros Hv. unfold create, send_validate_products. run. now rewrite Hv.
Qed.

End Create.

(** Items that agree on product and quantity are priced alike, whatever
    price the client wrote on them. *)
Lemma priced_alike {amount : Type} {B : Type}
  (g : string -> Z -> B) (xs ys : list (OrderItemDto amount)) :
  map (@it_productId amount) xs = map (@it_productId amount) ys ->
  map (@it_quantity amount) xs = map (@it_quantity amount) ys ->
  map (fun x => g (it_productId x) (it_quantity x)) xs =
  map (fun y => g (it_productId y) (it_quantity y)) ys.
Proof.
  revert ys; induction xs as [|x xs IH]; intros [|y ys]; cbn; try discriminate; [reflexivity|].
  intros [= Hi His] [= Hq Hqs]. rewrite Hi, Hq. f_equal. now apply IH.
Qed.

Lemma priced_items_alike {amount : Type} {N : JsNumber amount}
  (products : list (Product amount)) (xs ys : list (OrderItemDto amount)) :
  map (@it_productId amount) xs = map (@it_productId amount) ys ->
  map (@it_quantity amount) xs = map (@it_quantity amount) ys ->
  map (priced_item products) xs = map (priced_item products) ys.
Proof.
  intros Hi Hq.
  exact (priced_alike (fun i q => {| oi_price := resolved_price products i;
                                     oi_quantity := q;
                                     oi_productId := i |}) _ _ Hi Hq).
Qed.

Lemma create_input_alike {amount : Type} {N : JsNumber amount}
  (products : list (Product amount)) (dto dto' : CreateOrderDto amount) :
  map (@it_productId amount) (items dto') = map (@it_productId amount) (items dto) ->
  map (@it_quantity amount) (items dto') = map (@it_quantity amount) (items dto) ->
  create_input products dto' = create_input products dto.
Proof.
  intros Hi Hq. unfold create_input, spec_totalAmount, spec_totalItems.
  rewrite Hq, (priced_items_alike products _ _ Hi Hq).
  rewrite (priced_alike (fun i q => amt_mul (resolved_price products i) q) _ _ Hi Hq).
  reflexivity.
Qed.

Lemma all_resolve_alike {amount A B : Type} (products : list (Product amount))
  (f : A -> string) (g : B -> string) (xs : list A) (ys : list B) :
  map g ys = map f xs -> all_resolve products f xs -> all_resolve products g ys.
Proof.
  intros E H y Hy.
  assert (Hin : In (g y) (map f xs)) by (rewrite <- E; now apply in_map).
  apply in_map_iff in Hin as (x & Hx & Hxin). rewrite <- Hx. now apply H.
Qed.

(** C1. When the validator replies and every requested product is in its
    reply (and the store accepts the new row), [create] returns an order
    whose [totalAmount] is the sum over the items of resolved price times
    quantity and whose [totalItems] is the sum of the quantities; the
    order is persisted with these totals and with the resolved price on
    every item; and a request with the same products and quantities but
    other client-supplied prices has exactly the same outcome. *)
Theorem create_totals_from_resolved_prices
  {amount : Type} {N : JsNumber amount} (env : Env amount)
  (dto : CreateOrderDto amount) (w : World amount) (products : list (Product amount))
  (Hreply : validate_products env (map (@it_productId amount) (items dto)) = Replied products)
  (Hresolve : all_resolve products (@it_productId amount) (items dto))
  (Hfresh : find_row (uuid env) (db w) = None) :
  (exists order,
      fst (create env dto w) = Return order /\
      totalAmount (owp_order order) = spec_totalAmount products (items dto) /\
      totalItems (owp_order order) = spec_totalItems (items dto) /\
      exists row,
        find_row (o_id (owp_order order)) (db (snd (create env dto w))) = Some row /\
        row_order row = owp_order order /\
        row_OrderItem row = map (priced_item products) (items dto)) /\
  (forall dto' : CreateOrderDto amount,
      map (@it_productId amount) (items dto') = map (@it_productId amount) (items dto) ->
      map (@it_quantity amount) (items dto') = map (@it_quantity amount) (items dto) ->
      create env dto' w = create env dto w).
Proof.
  split.
  - rewrite (create_resolved env dto w products Hreply Hresolve Hfresh). cbn [fst snd db].
    eexists; split; [reflexivity|]. cbn [owp_order new_row row_order totalAmount totalItems
                                           create_input c_totalAmount c_totalItems o_id].
    split; [reflexivity|]. split; [reflexivity|].
    exists (new_row env (create_input products dto)).
    rewrite find_row_app, Hfresh. unfold find_row. cbn. rewrite String.eqb_refl.
    repeat split.
  - intros dto' Hi Hq.
    assert (Hreply' : validate_products env (map (@it_productId amount) (items dto'))
                      = Replied products) by now rewrite Hi.
    assert (Hresolve' : all_resolve products (@it_productId amount) (items dto'))
      by exact (all_resolve_alike products _ _ _ _ Hi Hresolve).
    rewrite (create_resolved env dto' w products Hreply' Hresolve' Hfresh).
    rewrite (create_resolved env dto w products Hreply Hresolve Hfresh).
    rewrite (create_input_alike products dto dto' Hi Hq), Hi.
    rewrite (priced_items_alike products _ _ Hi Hq).
    reflexivity.
Qed.

Lemma create_totals_example :
  exists order,
    fst (create (shop_env "order-1" 1000) dto_apples_bread (empty_world Z)) = Return order /\
    totalAmount (owp_order order) = 25 /\
    totalItems (owp_order order) = 3.
Proof.
  destruct (@create_totals_from_resolved_prices Z _ (shop_env "order-1" 1000)
              dto_apples_bread (empty_world Z) shop_products)
    as [(order & Hret & Hamount & Hitems & _) _].
  - reflexivity.
  - intros x [<- | [<- | []]]; discriminate.
  - reflexivity.
  - exists order. rewrite Hamount, Hitems. split; [exact Hret | split; reflexivity].
Defined.

(** ** Traces *)

Lemma validation_calls_app {amount : Type} (t t' : list (Event amount)) :
  validation_calls (t ++ t') = validation_calls t ++ validation_calls t'.
Proof.
  induction t as [|e t IH]; cbn; [reflexivity|].
  destruct e; cbn; now rewrite IH.
Qed.

(** C2. When the validator replies but its reply lacks the product of at
    least one requested item, [create] throws (the runtime's error on
    reading the price of [undefined], wrapped in an [RpcException]), the
    orders of the store are what they were, and no call to the store has
    been made at all. *)
Theorem create_unresolved_writes_nothing
  {amount : Type} {N : JsNumber amount} (env : Env amount)
  (dto : CreateOrderDto amount) (w : World amount) (products : list (Product amount))
  (Hreply : validate_products env (map (@it_productId amount) (items dto)) = Replied products)
  (Hmissing : exists x, In x (items dto) /\ find_product products (it_productId x) = None) :
  fst (create env dto w) = Throw (RpcException (ErrCaught undefined_price)) /\
  db (snd (create env dto w)) = db w /\
  filter is_store_call (trace (snd (create env dto w))) = filter is_store_call (trace w).
Proof.
  rewrite (create_unresolved env dto w products Hreply Hmissing). cbn [fst snd db trace].
  repeat split. rewrite filter_app. cbn. now rewrite app_nil_r.
Qed.

Lemma create_unresolved_example :
  fst (create (shop_env "order-2" 1500) dto_unknown world_one_order)
  = Throw (RpcException (ErrCaught undefined_price)) /\
  db (snd (create (shop_env "order-2" 1500) dto_unknown world_one_order)) = db world_one_order /\
  filter is_store_call (trace (snd (create (shop_env "order-2" 1500) dto_unknown world_one_order)))
  = filter is_store_call (trace world_one_order).
Proof.
  apply (@create_unresolved_writes_nothing Z _ (shop_env "order-2" 1500) dto_unknown
           world_one_order [ {| p_id := "A"; p_price := 10; p_name := "Apple" |} ]).
  - reflexivity.
  - exists {| it_productId := "Z"; it_quantity := 4; it_price := 3 |}.
    split; [right; left; reflexivity | reflexivity].
Defined.

(** Whatever happens afterwards, [create] issues exactly one validation
    call, and its payload is the list of the items' product identifiers. *)
Lemma create_validation_calls {amount : Type} {N : JsNumber amount} (env : Env amount)
  (dto : CreateOrderDto amount) (w : World amount) :
  validation_calls (trace (snd (create env dto w))) =
  validation_calls (trace w) ++ [map (@it_productId amount) (items dto)].
Proof.
  unfold create, send_validate_products, order_create. run.
  destruct (validate_products env _) as [products|e]; run;
    [|now rewrite validation_calls_app].
  destruct (reduce _ _ _); run; [|now rewrite validation_calls_app].
  destruct (map_throwing (row_step products) _); run; [|now rewrite validation_calls_app].
  destruct (find_row _ _); run;
    [now rewrite !validation_calls_app; cbn; rewrite app_nil_r|].
  destruct (map_throwing (with_name products) _); run;
    now rewrite !validation_calls_app; cbn; rewrite app_nil_r.
Qed.

(** C8, as the code has it. For every request, [create] issues exactly one
    validation call; its payload is the sequence of the product
    identifiers of the items, in request order and one per item, so every
    requested identifier appears and an identifier requested on several
    lines appears as many times. *)
Theorem create_sends_product_ids_as_requested
  {amount : Type} {N : JsNumber amount} (env : Env amount)
  (dto : CreateOrderDto amount) (w : World amount) :
  exists payload,
    validation_calls (trace (snd (create env dto w))) = validation_calls (trace w) ++ [payload] /\
    payload = map (@it_productId amount) (items dto) /\
    (forall x, In x (items dto) -> In (it_productId x) payload) /\
    (forall productId,
        count_occ string_dec payload productId =
        List.length (filter (fun x => String.eqb (it_productId x) productId) (items dto))).
Proof.
  exists (map (@it_productId amount) (items dto)).
  split; [apply create_validation_calls|]. split; [reflexivity|]. split.
  - intros x Hx. now apply in_map.
  - intros productId. induction (items dto) as [|x xs IH]; cbn; [reflexivity|].
    destruct (string_dec (it_productId x) productId) as [E|E].
    + apply String.eqb_eq in E. rewrite E. cbn. now rewrite IH.
    + apply String.eqb_neq in E. rewrite E. exact IH.
Qed.

(** C8, as stated, fails: two lines for the same product put the
    identifier twice in the payload. *)
Lemma create_sends_duplicate_ids :
  validation_calls
    (trace (snd (create (shop_env "order-1" 1000) dto_apples_twice (empty_world Z))))
  = [["A"; "A"]] /\
  ~ NoDup ["A"; "A"].
Proof.
  split; [reflexivity|].
  intros H. inversion H as [|? ? Hnotin _]; subst. apply Hnotin. now left.
Qed.

(** ** findAll *)

(** [Math_ceil_div] is the ceiling of the quotient: the least number of
    pages of [limit] rows that hold [total] rows. *)
Lemma Math_ceil_div_spec (total limit : Z) :
  0 < limit ->
  Math_ceil_div total limit * limit - limit < total <= Math_ceil_div total limit * limit.
Proof.
  intros Hl. unfold Math_ceil_div.
  pose proof (Z_div_mod total limit ltac:(lia)) as H.
  destruct (Z.div_eucl total limit) as [q r]. destruct H as [Heq Hr].
  destruct (Z.eqb_spec r 0); nia.
Qed.

Lemma findAll_runs {amount : Type} (dto : OrderPaginationDto) (w : World amount) :
  findAll dto w =
  (Return
     {| data := map (@row_order amount)
                  (firstn (Z.to_nat (limit dto))
                     (skipn (Z.to_nat ((page dto - 1) * limit dto))
                        (filter (matches_status (pg_status dto)) (db w))));
        meta := {| m_page := page dto;
                   m_totalPages :=
                     Z.of_nat (List.length (filter (matches_status (pg_status dto)) (db w)));
                   m_lastPage :=
                     Math_ceil_div
                       (Z.of_nat (List.length (filter (matches_status (pg_status dto)) (db w))))
                       (limit dto) |} |},
   {| db := db w;
      trace := (trace w ++ [StoreCall OpCount None]) ++ [StoreCall OpFindMany None] |}).
Proof. reflexivity. Qed.

(** C4, as the code has it. For a page number and a [limit] of at least 1
    (the pagination DTO lets no others through), [findAll] returns a
    page (never an error) and leaves the store alone; [meta.totalPages] is
    the number of rows matching the filter and [meta.lastPage] is the
    ceiling of that number over [limit]; for a page beyond [lastPage] the
    data is empty and [meta] is the same; with 25 matching rows, page 1
    and limit 10, the data has 10 rows, [lastPage] is 3 and [totalPages]
    is 25. *)
Theorem findAll_pagination {amount : Type} (w : World amount) (dto : OrderPaginationDto)
  (Hpage : 1 <= page dto)
  (Hlimit : 1 <= limit dto) :
  let total := Z.of_nat (List.length (filter (matches_status (pg_status dto)) (db w))) in
  exists result,
    fst (findAll dto w) = Return result /\
    db (snd (findAll dto w)) = db w /\
    m_page (meta result) = page dto /\
    m_totalPages (meta result) = total /\
    m_lastPage (meta result) * limit dto - limit dto < total <= m_lastPage (meta result) * limit dto /\
    (m_lastPage (meta result) < page dto -> data result = []) /\
    (total = 25 -> page dto = 1 -> limit dto = 10 ->
     List.length (data result) = 10%nat /\
     m_lastPage (meta result) = 3 /\
     m_totalPages (meta result) = 25).
Proof.
  intros total. rewrite findAll_runs. cbn [fst snd db data meta m_page m_totalPages m_lastPage].
  fold total.
  pose proof (Math_ceil_div_spec total (limit dto) ltac:(lia)) as Hceil.
  eexists; split; [reflexivity|]. cbn [data meta m_page m_totalPages m_lastPage].
  repeat (split; [first [reflexivity | exact Hceil | lia]|]).
  split.
  - intros Hbeyond. rewrite skipn_all2; [now rewrite firstn_nil|].
    unfold total in *. nia.
  - intros H25 Hp Hl. rewrite Hl, H25 in *.
    split; [|split; [nia | reflexivity]].
    rewrite length_map, length_firstn, length_skipn, Hp. cbn.
    unfold total in H25. lia.
Qed.

Lemma findAll_pagination_example :
  exists result,
    fst (findAll {| page := 1; limit := 10; pg_status := Some PENDING |} world_25_pending)
    = Return result /\
    List.length (data result) = 10%nat /\
    m_lastPage (meta result) = 3 /\
    m_totalPages (meta result) = 25.
Proof.
  destruct (@findAll_pagination Z world_25_pending
              {| page := 1; limit := 10; pg_status := Some PENDING |})
    as (result & Hret & _ & _ & _ & _ & _ & H25).
  - cbn. lia.
  - cbn. lia.
  - exists result. split; [exact Hret|]. apply H25; reflexivity.
Defined.

(** C4, as stated, fails: with 25 matching rows [meta.totalPages] is 25,
    not 3. *)
Lemma findAll_totalPages_is_row_count :
  exists result,
    fst (findAll {| page := 1; limit := 10; pg_status := Some PENDING |} world_25_pending)
    = Return result /\
    List.length (filter (matches_status (Some PENDING)) (db world_25_pending)) = 25%nat /\
    m_totalPages (meta result) = 25 /\
    m_totalPages (meta result) <> 3.
Proof.
  eexists. split; [reflexivity|]. cbn. repeat split. discriminate.
Qed.

(** ** findOne *)

Section FindOne.

Context {amount : Type}.
Variable env : Env amount.

Lemma findFirst_runs (id : string) (w : World amount) :
  order_findFirst id w =
  (Return (option_map (@included amount) (find_row id (db w))),
   {| db := db w; trace := trace w ++ [StoreCall OpFindFirst (Some id)] |}).
Proof. reflexivity. Qed.

Lemma findOne_missing (id : string) (w : World amount) :
  find_row id (db w) = None ->
  findOne env id w =
  (Throw (not_found id),
   {| db := db w; trace := trace w ++ [StoreCall OpFindFirst (Some id)] |}).
Proof.
  intros H. unfold findOne, bind at 1. rewrite findFirst_runs, H. reflexivity.
Qed.

(** [findOne] on a stored order: one read, one validation call, and an
    outcome that depends on the reply only. *)
Lemma findOne_found (id : string) (w : World amount) (r : OrderRow amount) :
  find_row id (db w) = Some r ->
  findOne env id w =
  (match validate_products env (map (@oi_productId amount) (row_OrderItem r)) with
   | Replied products =>
       match map_throwing (with_name products) (row_OrderItem r) with
       | Return named => Return {| owp_order := row_order r; owp_OrderItem := named |}
       | Throw t => Throw t
       end
   | Failed e => Throw (RemoteError e)
   end,
   {| db := db w;
      trace := (trace w ++ [StoreCall OpFindFirst (Some id)])
               ++ [SendValidateProducts (map (@oi_productId amount) (row_OrderItem r))] |}).
Proof.
  intros H. unfold findOne, bind at 1. rewrite findFirst_runs, H.
  cbn [option_map included owi_OrderItem owi_order].
  unfold send_validate_products. run.
  destruct (validate_products env _) as [products|e]; run; [|reflexivity].
  now destruct (map_throwing (with_name products) (row_OrderItem r)).
Qed.

Lemma findOne_keeps_db (id : string) (w : World amount) :
  db (snd (findOne env id w)) = db w.
Proof.
  destruct (find_row id (db w)) as [r|] eqn:E.
  - now rewrite (findOne_found id w r E).
  - now rewrite (findOne_missing id w E).
Qed.

(** On a stored order [findOne] never throws an [RpcException]: a
    failure of the validator, and the runtime's error on a product
    missing from the reply, reach the caller as they are. *)
Lemma findOne_found_throws_raw (id : string) (w : World amount) (r : OrderRow amount)
  (t : Thrown) :
  find_row id (db w) = Some r ->
  fst (findOne env id w) = Throw t ->
  (exists e, t = RemoteError e) \/ t = undefined_name.
Proof.
  intros H. rewrite (findOne_found id w r H). cbn [fst].
  destruct (validate_products env _) as [products|e].
  - destruct (map_throwing (with_name products) (row_OrderItem r)) as [named|t'] eqn:E;
      [discriminate|].
    intros [= <-]. right.
    clear H. induction (row_OrderItem r) as [|x xs IH]; cbn in E; [discriminate|].
    unfold with_name at 1, name_of in E.
    destruct (find_product products (oi_productId x)); [|now injection E as <-].
    destruct (map_throwing (with_name products) xs); [discriminate|].
    injection E as <-. now apply IH.
  - intros [= <-]. left. now exists e.
Qed.

End FindOne.

(** C5. For an identifier with no matching order, [findOne] does not
    return: it throws an [RpcException] whose payload has the status
    [NOT_FOUND] and a message that contains the identifier, after one read
    of the store and without calling the validator. The error tells the
    case apart: [findOne] throws it exactly when no order matches, and it
    differs from every error with which a remote call fails. *)
Theorem findOne_not_found {amount : Type} (env : Env amount) (id : string) (w : World amount)
  (Hnone : find_row id (db w) = None) :
  (exists message,
      fst (findOne env id w) = Throw (RpcException (ErrObject HttpStatus_NOT_FOUND message)) /\
      exists before after, message = (before ++ id ++ after)%string) /\
  (forall order, fst (findOne env id w) <> Return order) /\
  snd (findOne env id w) =
    {| db := db w; trace := trace w ++ [StoreCall OpFindFirst (Some id)] |} /\
  (forall (env' : Env amount) (id' : string) (w' : World amount),
      fst (findOne env' id' w') = Throw (not_found id') <-> find_row id' (db w') = None) /\
  (forall e, not_found id <> RemoteError e).
Proof.
  rewrite (findOne_missing env id w Hnone). cbn [fst snd].
  split; [|split; [|split; [|split]]].
  - eexists. split; [reflexivity|]. now exists "Order with id [", "] not found".
  - discriminate.
  - reflexivity.
  - intros env' id' w'. split.
    + destruct (find_row id' (db w')) as [r|] eqn:E; [|reflexivity].
      intros H. destruct (findOne_found_throws_raw env' id' w' r _ E H) as [[e He] | He];
        discriminate.
    + intros H. now rewrite (findOne_missing env' id' w' H).
  - discriminate.
Qed.

Lemma findOne_not_found_example :
  exists message,
    fst (findOne (shop_env "unused" 3000) "order-9" world_one_order)
    = Throw (RpcException (ErrObject HttpStatus_NOT_FOUND message)) /\
    exists before after, message = (before ++ "order-9" ++ after)%string.
Proof.
  apply (@findOne_not_found Z (shop_env "unused" 3000) "order-9" world_one_order).
  reflexivity.
Defined.

(** C9 fails on the code: [findOne] awaits the validation call outside
    any [try]/[catch], so a failure of the validator reaches the caller of
    [findOne] (and of [changeStatus], which calls it) as the bare remote
    error, where [create] wraps the same failure in an [RpcException]. *)
Theorem findOne_validator_error_is_not_wrapped :
  fst (findOne (outage_env "unused" 3000) "order-1" world_one_order)
  = Throw (RemoteError "validator unavailable") /\
  (forall error,
      fst (findOne (outage_env "unused" 3000) "order-1" world_one_order)
      <> Throw (RpcException error)) /\
  fst (changeStatus (outage_env "unused" 3000)
         {| cs_id := "order-1"; cs_status := DELIVERED |} world_one_order)
  = Throw (RemoteError "validator unavailable") /\
  fst (create (outage_env "order-2" 3000) dto_apples_bread world_one_order)
  = Throw (RpcException (ErrCaught (RemoteError "validator unavailable"))) /\
  fst (createPaymentSession (outage_env "unused" 3000)
         {| owp_order := row_order (new_row (shop_env "order-1" 1000)
                                      (create_input shop_products dto_apples_bread));
            owp_OrderItem := [] |} world_one_order)
  = Throw (RpcException (ErrCaught (RemoteError "gateway unavailable"))).
Proof.
  repeat split; try reflexivity. intros error. discriminate.
Qed.

(** The same, for every stored order and every failure of the validator. *)
Lemma findOne_validator_failed {amount : Type} (env : Env amount) (id : string)
  (w : World amount) (r : OrderRow amount) (e : string) :
  find_row id (db w) = Some r ->
  validate_products env (map (@oi_productId amount) (row_OrderItem r)) = Failed e ->
  fst (findOne env id w) = Throw (RemoteError e).
Proof.
  intros Hr Hv. rewrite (findOne_found env id w r Hr). cbn [fst]. now rewrite Hv.
Qed.

(** The gateway's failures are wrapped. *)
Lemma createPaymentSession_gateway_failed {amount : Type} (env : Env amount)
  (order : OrderWithProducts amount) (w : World amount) (t : Thrown) :
  fst (createPaymentSession env order w) = Throw t ->
  exists e, t = RpcException (ErrCaught (RemoteError e)).
Proof.
  unfold createPaymentSession, send_create_payment_session. run.
  destruct (create_payment_session env _) as [session|e]; run; [discriminate|].
  intros [= <-]. now exists e.
Qed.

Lemma createPaymentSession_keeps_db {amount : Type} (env : Env amount)
  (order : OrderWithProducts amount) (w : World amount) :
  db (snd (createPaymentSession env order w)) = db w.
Proof.
  unfold createPaymentSession, send_create_payment_session. run.
  now destruct (create_payment_session env _).
Qed.

(** ** The store's update *)

Lemma OrderStatus_eqb_eq (a b : OrderStatus) : OrderStatus_eqb a b = true <-> a = b.
Proof. destruct a, b; cbn; split; congruence. Qed.

Section Update.

Context {amount : Type}.

Lemma apply_update_id (d : OrderUpdateInput) (r : OrderRow amount) :
  o_id (row_order (apply_update d r)) = o_id (row_order r).
Proof. reflexivity. Qed.

Lemma update_row_found (id : string) (f : OrderRow amount -> OrderRow amount)
  (rows : list (OrderRow amount)) (r : OrderRow amount) :
  (forall x, o_id (row_order (f x)) = o_id (row_order x)) ->
  find_row id rows = Some r ->
  find_row id (update_row id f rows) = Some (f r).
Proof.
  intros Hid. unfold find_row.
  induction rows as [|x rows IH]; cbn; [discriminate|].
  destruct (String.eqb (o_id (row_order x)) id) eqn:E; cbn.
  - intros [= <-]. now rewrite Hid, E.
  - rewrite E. exact IH.
Qed.

(** An update relates every row to the row at the same place, and leaves
    the rows under other identifiers as they are. *)
Lemma update_row_pointwise (R : OrderRow amount -> OrderRow amount -> Prop)
  (id : string) (f : OrderRow amount -> OrderRow amount) (rows : list (OrderRow amount)) :
  (forall x, R x x) ->
  (forall x, R x (f x)) ->
  Forall2 (fun x y => R x y /\ (o_id (row_order x) <> id -> y = x))
    rows (update_row id f rows).
Proof.
  intros Hrefl Hf. induction rows as [|x rows IH]; cbn; [constructor|].
  destruct (String.eqb_spec (o_id (row_order x)) id) as [E|E].
  - constructor; [split; [apply Hf | congruence]|].
    clear IH. induction rows as [|y rows IH]; constructor; auto.
  - constructor; auto.
Qed.

Lemma update_row_Forall (P : OrderRow amount -> Prop) (id : string)
  (f : OrderRow amount -> OrderRow amount) (rows : list (OrderRow amount)) :
  (forall x, P x -> P (f x)) ->
  Forall P rows -> Forall P (update_row id f rows).
Proof.
  intros Hf. induction 1 as [|x rows Hx Hrows IH]; cbn; [constructor|].
  destruct (String.eqb (o_id (row_order x)) id); constructor; auto.
Qed.

(** [order.update]: refused when no row has the identifier, or when a
    receipt is to be created for an order that has one; applied to the
    row otherwise. *)
Lemma order_update_runs (id : string) (d : OrderUpdateInput) (w : World amount) :
  order_update id d w =
  match find_row id (db w) with
  | None =>
      (Throw (PrismaError RecordNotFound),
       {| db := db w; trace := trace w ++ [StoreCall OpUpdate (Some id)] |})
  | Some r =>
      match u_OrderReceipt_create d, row_OrderReceipt r with
      | Some _, Some _ =>
          (Throw (PrismaError RelationViolation),
           {| db := db w; trace := trace w ++ [StoreCall OpUpdate (Some id)] |})
      | _, _ =>
          (Return (row_order (apply_update d r)),
           {| db := update_row id (apply_update d) (db w);
              trace := trace w ++ [StoreCall OpUpdate (Some id)] |})
      end
  end.
Proof.
  unfold order_update. run.
  destruct (find_row id (db w)) as [r|]; [|reflexivity].
  destruct (u_OrderReceipt_create d), (row_OrderReceipt r); reflexivity.
Qed.

Lemma same_but_status_refl (r : OrderRow amount) : same_but_status r r.
Proof. repeat split. Qed.

Lemma same_but_status_update (st : OrderStatus) (r : OrderRow amount) :
  same_but_status r (apply_update (status_data st) r).
Proof. repeat split. Qed.

End Update.

(** ** changeStatus *)

Section ChangeStatus.

Context {amount : Type}.
Variable env : Env amount.
Variable dto : ChangeOrderStatusDto.
Variable w : World amount.
Variable r : OrderRow amount.
Hypothesis Hfound : find_row (cs_id dto) (db w) = Some r.

Lemma changeStatus_found :
  changeStatus env dto w =
  match fst (findOne env (cs_id dto) w) with
  | Throw t => (Throw t, after_findOne (cs_id dto) r w)
  | Return order =>
      if OrderStatus_eqb (status (row_order r)) (cs_status dto)
      then (Return (Decorated order), after_findOne (cs_id dto) r w)
      else (Return (Updated (row_order (apply_update (status_data (cs_status dto)) r))),
            {| db := update_row (cs_id dto) (apply_update (status_data (cs_status dto))) (db w);
               trace := trace (after_findOne (cs_id dto) r w)
                        ++ [StoreCall OpUpdate (Some (cs_id dto))] |})
  end.
Proof.
  unfold changeStatus, bind. rewrite (findOne_found env (cs_id dto) w r Hfound). cbn [fst].
  fold (after_findOne (cs_id dto) r w).
  destruct (validate_products env _) as [products|e]; [|reflexivity].
  destruct (map_throwing (with_name products) (row_OrderItem r)) as [named|t];
    [|reflexivity].
  cbn [owp_order].
  destruct (OrderStatus_eqb (status (row_order r)) (cs_status dto)); [reflexivity|].
  fold (status_data (cs_status dto)).
  rewrite order_update_runs. cbn [db after_findOne]. rewrite Hfound. reflexivity.
Qed.

(** What [findOne] returns for the stored order. *)
Lemma findOne_returns (order : OrderWithProducts amount) :
  fst (findOne env (cs_id dto) w) = Return order ->
  exists products,
    validate_products env (map (@oi_productId amount) (row_OrderItem r)) = Replied products /\
    order = {| owp_order := row_order r;
               owp_OrderItem := map (named_item products) (row_OrderItem r) |}.
Proof.
  rewrite (findOne_found env (cs_id dto) w r Hfound). cbn [fst].
  destruct (validate_products env _) as [products|e]; [|discriminate].
  destruct (map_throwing (with_name products) (row_OrderItem r)) as [named|t] eqn:E;
    [|discriminate].
  intros [= <-]. exists products. split; [reflexivity|].
  now rewrite (names_returned products _ _ E).
Qed.

Lemma findOne_resolved (products : list (Product amount)) :
  validate_products env (map (@oi_productId amount) (row_OrderItem r)) = Replied products ->
  all_resolve products (@oi_productId amount) (row_OrderItem r) ->
  fst (findOne env (cs_id dto) w) =
  Return {| owp_order := row_order r;
            owp_OrderItem := map (named_item products) (row_OrderItem r) |}.
Proof.
  intros Hv Hres. rewrite (findOne_found env (cs_id dto) w r Hfound). cbn [fst].
  rewrite Hv. now rewrite names_resolved by exact Hres.
Qed.

End ChangeStatus.

Lemma store_writes_after_findOne {amount : Type} (id : string) (r : OrderRow amount)
  (w : World amount) :
  store_writes (trace (after_findOne id r w)) = store_writes (trace w).
Proof.
  unfold store_writes, after_findOne. cbn [trace].
  rewrite !filter_app. cbn. now rewrite !app_nil_r.
Qed.

Lemma validation_calls_after_findOne {amount : Type} (id : string) (r : OrderRow amount)
  (w : World amount) :
  validation_calls (trace (after_findOne id r w)) =
  validation_calls (trace w) ++ [map (@oi_productId amount) (row_OrderItem r)].
Proof.
  unfold after_findOne. cbn [trace]. rewrite !validation_calls_app. cbn.
  now rewrite app_nil_r.
Qed.

Lemma strip_named_items {amount : Type} (products : list (Product amount))
  (xs : list (OrderItem amount)) :
  map (@strip_name amount) (map (named_item products) xs) = xs.
Proof.
  induction xs as [|[price quantity productId] xs IH]; cbn; [reflexivity|]. now rewrite IH.
Qed.

(** C6. On a stored order whose status is already the requested one,
    [changeStatus] leaves the orders of the store as they are and makes no
    write call, whatever the validator replies; what it returns is the
    stored order, with its scalar fields and its items unaltered (and the
    product names added); and it does return whenever the validator
    resolves the order's items. *)
Theorem changeStatus_same_status_is_noop {amount : Type} (env : Env amount)
  (dto : ChangeOrderStatusDto) (w : World amount) (r : OrderRow amount)
  (Hfound : find_row (cs_id dto) (db w) = Some r)
  (Hsame : status (row_order r) = cs_status dto) :
  db (snd (changeStatus env dto w)) = db w /\
  store_writes (trace (snd (changeStatus env dto w))) = store_writes (trace w) /\
  (forall result,
      fst (changeStatus env dto w) = Return result ->
      exists order,
        result = Decorated order /\
        owp_order order = row_order r /\
        map (@strip_name amount) (owp_OrderItem order) = row_OrderItem r) /\
  (forall products,
      validate_products env (map (@oi_productId amount) (row_OrderItem r)) = Replied products ->
      all_resolve products (@oi_productId amount) (row_OrderItem r) ->
      fst (changeStatus env dto w) =
      Return (Decorated {| owp_order := row_order r;
                           owp_OrderItem := map (named_item products) (row_OrderItem r) |})).
Proof.
  rewrite (changeStatus_found env dto w r Hfound).
  apply OrderStatus_eqb_eq in Hsame. rewrite Hsame.
  destruct (fst (findOne env (cs_id dto) w)) as [order|t] eqn:E; cbn [fst snd].
  - destruct (findOne_returns env dto w r Hfound order E) as (products & Hv & ->).
    split; [reflexivity|]. split; [apply store_writes_after_findOne|]. split.
    + intros result [= <-]. eexists. split; [reflexivity|]. cbn [owp_order owp_OrderItem].
      split; [reflexivity | apply strip_named_items].
    + intros products' Hv' Hres.
      rewrite (findOne_resolved env dto w r Hfound products' Hv' Hres) in E.
      now injection E as <-.
  - split; [reflexivity|]. split; [apply store_writes_after_findOne|]. split.
    + discriminate.
    + intros products Hv Hres.
      rewrite (findOne_resolved env dto w r Hfound products Hv Hres) in E. discriminate.
Qed.

Lemma changeStatus_same_status_example :
  db (snd (changeStatus (shop_env "unused" 3000)
             {| cs_id := "order-1"; cs_status := PENDING |} world_one_order))
  = db world_one_order /\
  store_writes (trace (snd (changeStatus (shop_env "unused" 3000)
                              {| cs_id := "order-1"; cs_status := PENDING |} world_one_order)))
  = store_writes (trace world_one_order).
Proof.
  destruct (@changeStatus_same_status_is_noop Z (shop_env "unused" 3000)
              {| cs_id := "order-1"; cs_status := PENDING |} world_one_order
              (new_row (shop_env "order-1" 1000) (create_input shop_products dto_apples_bread)))
    as (Hdb & Hwrites & _).
  - reflexivity.
  - reflexivity.
  - split; [exact Hdb | exact Hwrites].
Defined.

(** C7. On a stored order whose status differs from the requested one,
    [changeStatus] changes nothing in the store but the status of that
    order: every row keeps its identifier, totals, paid flag, payment
    time and reference, creation time, items and receipt, and the rows of
    the other orders are untouched, whatever the validator replies. When
    the validator resolves the order's items the status is written: the
    order then has the requested status, one write call has been made, and
    the updated record is returned. *)
Theorem changeStatus_updates_status_only {amount : Type} (env : Env amount)
  (dto : ChangeOrderStatusDto) (w : World amount) (r : OrderRow amount)
  (Hfound : find_row (cs_id dto) (db w) = Some r)
  (Hdiff : status (row_order r) <> cs_status dto) :
  Forall2 (fun x y => same_but_status x y /\ (o_id (row_order x) <> cs_id dto -> y = x))
    (db w) (db (snd (changeStatus env dto w))) /\
  (forall products,
      validate_products env (map (@oi_productId amount) (row_OrderItem r)) = Replied products ->
      all_resolve products (@oi_productId amount) (row_OrderItem r) ->
      exists r',
        find_row (cs_id dto) (db (snd (changeStatus env dto w))) = Some r' /\
        status (row_order r') = cs_status dto /\
        same_but_status r r' /\
        fst (changeStatus env dto w) = Return (Updated (row_order r')) /\
        store_writes (trace (snd (changeStatus env dto w))) =
        store_writes (trace w) ++ [StoreCall OpUpdate (Some (cs_id dto))]).
Proof.
  rewrite (changeStatus_found env dto w r Hfound).
  destruct (OrderStatus_eqb (status (row_order r)) (cs_status dto)) eqn:Eq;
    [apply OrderStatus_eqb_eq in Eq; contradiction|].
  assert (Hsame : Forall2 (fun x y : OrderRow amount =>
                             same_but_status x y /\ (o_id (row_order x) <> cs_id dto -> y = x))
                    (db w) (db w)).
  { apply Forall2_diag. intros x. split; [apply same_but_status_refl | reflexivity]. }
  destruct (fst (findOne env (cs_id dto) w)) as [order|t] eqn:E; cbn [fst snd db].
  - split.
    + apply update_row_pointwise;
        [apply same_but_status_refl | apply same_but_status_update].
    + intros products Hv Hres.
      exists (apply_update (status_data (cs_status dto)) r).
      split; [now apply update_row_found|].
      split; [reflexivity|]. split; [apply same_but_status_update|].
      split; [reflexivity|].
      cbn [trace]. unfold store_writes. rewrite filter_app.
      fold (store_writes (trace (after_findOne (cs_id dto) r w))).
      now rewrite store_writes_after_findOne.
  - split; [exact Hsame|].
    intros products Hv Hres.
    rewrite (findOne_resolved env dto w r Hfound products Hv Hres) in E. discriminate.
Qed.

Lemma changeStatus_updates_status_example :
  exists r',
    find_row "order-1"
      (db (snd (changeStatus (shop_env "unused" 3000)
                  {| cs_id := "order-1"; cs_status := DELIVERED |} world_one_order)))
    = Some r' /\
    status (row_order r') = DELIVERED /\
    same_but_status
      (new_row (shop_env "order-1" 1000) (create_input shop_products dto_apples_bread)) r'.
Proof.
  destruct (@changeStatus_updates_status_only Z (shop_env "unused" 3000)
              {| cs_id := "order-1"; cs_status := DELIVERED |} world_one_order
              (new_row (shop_env "order-1" 1000) (create_input shop_products dto_apples_bread)))
    as [_ H].
  - reflexivity.
  - discriminate.
  - destruct (H shop_products) as (r' & Hr' & Hst & Hsame & _).
    + reflexivity.
    + intros x [<- | [<- | []]]; discriminate.
    + exists r'. split; [exact Hr' | split; [exact Hst | exact Hsame]].
Defined.

(** C10. On a stored order [changeStatus] always issues one validation
    call, for the product identifiers of the order's items, also when the
    status already is the requested one. When the validator resolves the
    items, the branch without a transition returns the stored order with
    the product name on every item and writes nothing, and the branch
    with a transition issues one update and returns the record the store
    then holds: the stored order with the requested status and every
    other field as it was, which carries no items. *)
Theorem changeStatus_always_validates {amount : Type} (env : Env amount)
  (dto : ChangeOrderStatusDto) (w : World amount) (r : OrderRow amount)
  (Hfound : find_row (cs_id dto) (db w) = Some r) :
  validation_calls (trace (snd (changeStatus env dto w))) =
  validation_calls (trace w) ++ [map (@oi_productId amount) (row_OrderItem r)] /\
  (forall products,
      validate_products env (map (@oi_productId amount) (row_OrderItem r)) = Replied products ->
      all_resolve products (@oi_productId amount) (row_OrderItem r) ->
      (status (row_order r) = cs_status dto ->
       exists order,
         fst (changeStatus env dto w) = Return (Decorated order) /\
         owp_order order = row_order r /\
         owp_OrderItem order = map (named_item products) (row_OrderItem r) /\
         map (@ni_name amount) (owp_OrderItem order) =
         map (fun item => resolved_name products (oi_productId item)) (row_OrderItem r) /\
         db (snd (changeStatus env dto w)) = db w /\
         store_writes (trace (snd (changeStatus env dto w))) = store_writes (trace w)) /\
      (status (row_order r) <> cs_status dto ->
       exists updated : Order amount,
         fst (changeStatus env dto w) = Return (Updated updated) /\
         status updated = cs_status dto /\
         o_id updated = cs_id dto /\
         updated = {| o_id := o_id (row_order r);
                      totalAmount := totalAmount (row_order r);
                      totalItems := totalItems (row_order r);
                      status := cs_status dto;
                      paid := paid (row_order r);
                      paidAt := paidAt (row_order r);
                      stripeChargeId := stripeChargeId (row_order r);
                      createdAt := createdAt (row_order r) |} /\
         (exists r',
             find_row (cs_id dto) (db (snd (changeStatus env dto w))) = Some r' /\
             row_order r' = updated /\
             row_OrderItem r' = row_OrderItem r /\
             row_OrderReceipt r' = row_OrderReceipt r) /\
         db (snd (changeStatus env dto w)) =
         update_row (cs_id dto) (apply_update (status_data (cs_status dto))) (db w) /\
         store_writes (trace (snd (changeStatus env dto w))) =
         store_writes (trace w) ++ [StoreCall OpUpdate (Some (cs_id dto))])).
Proof.
  rewrite (changeStatus_found env dto w r Hfound). split.
  - destruct (fst (findOne env (cs_id dto) w)) as [order|t];
      [destruct (OrderStatus_eqb (status (row_order r)) (cs_status dto))|];
      cbn [snd trace]; try apply validation_calls_after_findOne.
    rewrite validation_calls_app, validation_calls_after_findOne. cbn.
    now rewrite app_nil_r.
  - intros products Hv Hres.
    rewrite (findOne_resolved env dto w r Hfound products Hv Hres). split.
    + intros Hsame. apply OrderStatus_eqb_eq in Hsame. rewrite Hsame. cbn [fst snd].
      eexists. split; [reflexivity|]. cbn [owp_order owp_OrderItem].
      split; [reflexivity|]. split; [reflexivity|]. split; [now rewrite map_map|].
      split; [reflexivity | apply store_writes_after_findOne].
    + intros Hdiff.
      destruct (OrderStatus_eqb (status (row_order r)) (cs_status dto)) eqn:Eq;
        [apply OrderStatus_eqb_eq in Eq; contradiction|].
      cbn [fst snd db trace]. eexists. split; [reflexivity|]. split; [reflexivity|].
      split; [cbn; now apply find_row_id with (rows := db w)|].
      split; [reflexivity|]. split; [|split; [reflexivity|]].
      * exists (apply_update (status_data (cs_status dto)) r).
        split; [now apply update_row_found|]. repeat split.
      * unfold store_writes. rewrite filter_app.
        fold (store_writes (trace (after_findOne (cs_id dto) r w))).
        now rewrite store_writes_after_findOne.
Qed.

Lemma changeStatus_always_validates_example :
  validation_calls
    (trace (snd (changeStatus (shop_env "unused" 3000)
                   {| cs_id := "order-1"; cs_status := PENDING |} world_one_order)))
  = validation_calls (trace world_one_order) ++ [["A"; "B"]].
Proof.
  apply (@changeStatus_always_validates Z (shop_env "unused" 3000)
           {| cs_id := "order-1"; cs_status := PENDING |} world_one_order
           (new_row (shop_env "order-1" 1000) (create_input shop_products dto_apples_bread))).
  reflexivity.
Defined.

(** ** paidOrder *)

Lemma paidOrder_runs {amount : Type} (env : Env amount) (dto : PaidOrderDto) (w : World amount) :
  paidOrder env dto w = order_update (pd_orderId dto) (paid_data (now env) dto) w.
Proof.
  unfold paidOrder, bind, ret. fold (paid_data (now env) dto).
  now destruct (order_update (pd_orderId dto) (paid_data (now env) dto) w) as [[order|t] w'].
Qed.

(** [paidOrder] does all of its update or none of it. *)
Lemma paidOrder_all_or_nothing {amount : Type} (env : Env amount) (dto : PaidOrderDto)
  (w : World amount) :
  (exists t, fst (paidOrder env dto w) = Throw t /\ db (snd (paidOrder env dto w)) = db w) \/
  (exists r,
      find_row (pd_orderId dto) (db w) = Some r /\
      row_OrderReceipt r = None /\
      fst (paidOrder env dto w) = Return (row_order (apply_update (paid_data (now env) dto) r)) /\
      db (snd (paidOrder env dto w)) =
      update_row (pd_orderId dto) (apply_update (paid_data (now env) dto)) (db w)).
Proof.
  rewrite paidOrder_runs, order_update_runs.
  destruct (find_row (pd_orderId dto) (db w)) as [r|] eqn:E.
  - cbn [paid_data u_OrderReceipt_create].
    destruct (row_OrderReceipt r) eqn:Er.
    + left. eexists. split; reflexivity.
    + right. exists r. repeat split. exact Er.
  - left. eexists. split; reflexivity.
Qed.

(** ** What the worlds the service reaches have in common *)

Section Invariant.

Context {amount : Type} {N : JsNumber amount}.

Lemma create_db (env : Env amount) (dto : CreateOrderDto amount) (w : World amount) :
  db (snd (create env dto w)) = db w \/
  exists input, db (snd (create env dto w)) = db w ++ [new_row env input].
Proof.
  unfold create, send_validate_products, order_create. run.
  destruct (validate_products env _) as [products|e]; run; [|now left].
  destruct (reduce _ _ _) as [total|t]; run; [|now left].
  destruct (map_throwing (row_step products) _) as [rows|t]; run; [|now left].
  destruct (find_row _ _); run; [now left|].
  right. eexists.
  destruct (map_throwing (with_name products) _); run; reflexivity.
Qed.

Lemma changeStatus_db (env : Env amount) (dto : ChangeOrderStatusDto) (w : World amount) :
  db (snd (changeStatus env dto w)) = db w \/
  db (snd (changeStatus env dto w)) =
  update_row (cs_id dto) (apply_update (status_data (cs_status dto))) (db w).
Proof.
  destruct (find_row (cs_id dto) (db w)) as [r|] eqn:E.
  - rewrite (changeStatus_found env dto w r E).
    destruct (fst (findOne env (cs_id dto) w)); [|now left].
    destruct (OrderStatus_eqb _ _); [now left | now right].
  - left. unfold changeStatus, bind. now rewrite (findOne_missing env (cs_id dto) w E).
Qed.

Lemma new_row_unpaid (env : Env amount) (input : OrderCreateInput amount) :
  paid_iff_receipt (new_row env input).
Proof. unfold paid_iff_receipt; cbn. split; [discriminate | congruence]. Qed.

Lemma status_update_keeps_paid (st : OrderStatus) (r : OrderRow amount) :
  paid_iff_receipt r -> paid_iff_receipt (apply_update (status_data st) r).
Proof. exact (fun H => H). Qed.

Lemma paid_update_is_paid (time : Z) (dto : PaidOrderDto) (r : OrderRow amount) :
  paid_iff_receipt (apply_update (paid_data time dto) r).
Proof. unfold paid_iff_receipt; cbn. split; [discriminate | reflexivity]. Qed.

(** Handling a request keeps every order either unpaid and without a
    receipt, or paid and with its receipt. *)
Lemma serve_keeps_paid_iff_receipt (env : Env amount) (req : Request amount)
  (w : World amount) :
  Forall paid_iff_receipt (db w) -> Forall paid_iff_receipt (db (serve env req w)).
Proof.
  intros H. destruct req as [dto|dto|id|dto|order|dto]; cbn [serve].
  - destruct (create_db env dto w) as [-> | [input ->]]; [exact H|].
    apply Forall_app. split; [exact H|]. constructor; [apply new_row_unpaid | constructor].
  - now rewrite findAll_runs.
  - now rewrite findOne_keeps_db.
  - destruct (changeStatus_db env dto w) as [-> | ->]; [exact H|].
    apply update_row_Forall; [apply status_update_keeps_paid | exact H].
  - now rewrite createPaymentSession_keeps_db.
  - destruct (paidOrder_all_or_nothing env dto w) as [(t & _ & ->) | (r & _ & _ & _ & ->)];
      [exact H|].
    apply update_row_Forall; [intros x _; apply paid_update_is_paid | exact H].
Qed.

Lemma reachable_paid_iff_receipt (w : World amount) :
  reachable w -> Forall paid_iff_receipt (db w).
Proof.
  induction 1 as [|env req w _ IH]; [constructor|].
  now apply serve_keeps_paid_iff_receipt.
Qed.

End Invariant.

(** C3, as the code has it. For a notification naming a stored order that
    has no receipt yet, [paidOrder] returns the updated order; that order
    then has status [PAID], [paid] set, [paidAt] set to the time of the
    call, the payment reference recorded and one receipt with the given
    URL, while its identifier, totals, creation time and items, and all
    other orders, are as before; the store has been called once, with one
    update. In every case [paidOrder] does all of this or throws and
    leaves the orders as they were, and in every world the service can
    reach an order is flagged paid exactly when it has a receipt. *)
Theorem paidOrder_finalizes_atomically {amount : Type} {N : JsNumber amount}
  (env : Env amount) (dto : PaidOrderDto) (w : World amount) (r : OrderRow amount)
  (Hfound : find_row (pd_orderId dto) (db w) = Some r)
  (Hfirst : row_OrderReceipt r = None) :
  (exists r',
      fst (paidOrder env dto w) = Return (row_order r') /\
      find_row (pd_orderId dto) (db (snd (paidOrder env dto w))) = Some r' /\
      status (row_order r') = PAID /\
      paid (row_order r') = true /\
      paidAt (row_order r') = Some (now env) /\
      stripeChargeId (row_order r') = Some (pd_stripePaymentId dto) /\
      row_OrderReceipt r' = Some {| receiptUrl := pd_receiptUrl dto |} /\
      same_but_payment r r') /\
  Forall2 (fun x y => o_id (row_order x) <> pd_orderId dto -> y = x)
    (db w) (db (snd (paidOrder env dto w))) /\
  filter is_store_call (trace (snd (paidOrder env dto w))) =
  filter is_store_call (trace w) ++ [StoreCall OpUpdate (Some (pd_orderId dto))] /\
  (forall (env0 : Env amount) (dto0 : PaidOrderDto) (w0 : World amount),
      (exists t, fst (paidOrder env0 dto0 w0) = Throw t /\
                 db (snd (paidOrder env0 dto0 w0)) = db w0) \/
      (exists r0,
          find_row (pd_orderId dto0) (db w0) = Some r0 /\
          row_OrderReceipt r0 = None /\
          fst (paidOrder env0 dto0 w0) =
          Return (row_order (apply_update (paid_data (now env0) dto0) r0)) /\
          db (snd (paidOrder env0 dto0 w0)) =
          update_row (pd_orderId dto0) (apply_update (paid_data (now env0) dto0)) (db w0))) /\
  (forall w0 : World amount, reachable w0 -> Forall paid_iff_receipt (db w0)).
Proof.
  split; [|split; [|split; [|split]]].
  - rewrite paidOrder_runs, order_update_runs, Hfound, Hfirst.
    cbn [paid_data u_OrderReceipt_create fst snd db].
    exists (apply_update (paid_data (now env) dto) r).
    split; [reflexivity|].
    split; [now apply update_row_found|].
    repeat split.
  - rewrite paidOrder_runs, order_update_runs, Hfound, Hfirst.
    cbn [paid_data u_OrderReceipt_create fst snd db].
    pose proof (update_row_pointwise (fun _ _ => True) (pd_orderId dto)
                  (apply_update (paid_data (now env) dto)) (db w)
                  (fun _ => I) (fun _ => I)) as H.
    revert H. apply Forall2_impl. now intros x y [_ H].
  - rewrite paidOrder_runs, order_update_runs, Hfound, Hfirst.
    cbn [paid_data u_OrderReceipt_create fst snd trace].
    now rewrite filter_app.
  - exact paidOrder_all_or_nothing.
  - exact reachable_paid_iff_receipt.
Qed.

Lemma paidOrder_finalizes_example :
  exists r',
    fst (paidOrder (shop_env "unused" 2000)
           {| pd_orderId := "order-1"; pd_stripePaymentId := "ch_1";
              pd_receiptUrl := "https://pay/r1" |} world_one_order)
    = Return (row_order r') /\
    find_row "order-1" (db world_one_paid) = Some r' /\
    status (row_order r') = PAID /\
    paid (row_order r') = true /\
    paidAt (row_order r') = Some 2000 /\
    stripeChargeId (row_order r') = Some "ch_1" /\
    row_OrderReceipt r' = Some {| receiptUrl := "https://pay/r1" |}.
Proof.
  destruct (@paidOrder_finalizes_atomically Z _ (shop_env "unused" 2000)
              {| pd_orderId := "order-1"; pd_stripePaymentId := "ch_1";
                 pd_receiptUrl := "https://pay/r1" |} world_one_order
              (new_row (shop_env "order-1" 1000) (create_input shop_products dto_apples_bread)))
    as [(r' & H1 & H2 & H3 & H4 & H5 & H6 & H7 & _) _].
  - reflexivity.
  - reflexivity.
  - exists r'. repeat split; assumption.
Defined.

(** C3, as stated, fails: a second notification for an order that
    already has its receipt is refused by the store, so the receipt with
    the URL of that notification is never created. The order is one the
    service itself has created and finalized. *)
Lemma paidOrder_second_notification_is_refused :
  reachable world_one_paid /\
  (exists r, find_row "order-1" (db world_one_paid) = Some r) /\
  fst (paidOrder (shop_env "unused" 4000)
         {| pd_orderId := "order-1"; pd_stripePaymentId := "ch_2";
            pd_receiptUrl := "https://pay/r2" |} world_one_paid)
  = Throw (PrismaError RelationViolation) /\
  (forall r',
      find_row "order-1"
        (db (snd (paidOrder (shop_env "unused" 4000)
                    {| pd_orderId := "order-1"; pd_stripePaymentId := "ch_2";
                       pd_receiptUrl := "https://pay/r2" |} world_one_paid)))
      = Some r' ->
      row_OrderReceipt r' = Some {| receiptUrl := "https://pay/r1" |} /\
      row_OrderReceipt r' <> Some {| receiptUrl := "https://pay/r2" |} /\
      paidAt (row_order r') <> Some 4000 /\
      stripeChargeId (row_order r') <> Some "ch_2").
Proof.
  split; [|split; [|split]].
  - exact (reachable_step (shop_env "unused" 2000)
             (ReqPaidOrder {| pd_orderId := "order-1"; pd_stripePaymentId := "ch_1";
                              pd_receiptUrl := "https://pay/r1" |})
             (reachable_step (shop_env "order-1" 1000) (ReqCreate dto_apples_bread)
                reachable_start)).
  - eexists. reflexivity.
  - reflexivity.
  - intros r' [= <-]. repeat split; discriminate.
Qed.

(** * Further properties of the service *)

(** ** create, on every path *)

Lemma all_resolve_or_not {amount A : Type} (products : list (Product amount))
  (f : A -> string) (xs : list A) :
  all_resolve products f xs \/
  exists x, In x xs /\ find_product products (f x) = None.
Proof.
  induction xs as [|x xs [IH | (y & Hy & Hnone)]].
  - left. intros x [].
  - destruct (find_product products (f x)) eqn:E.
    + left. intros y [<- | Hy]; [congruence | now apply IH].
    + right. exists x. split; [now left | exact E].
  - right. exists y. split; [now right | exact Hnone].
Qed.

(** [create] when the store refuses the identifier it drew. *)
Lemma create_collision {amount : Type} {N : JsNumber amount} (env : Env amount)
  (dto : CreateOrderDto amount) (w : World amount) (products : list (Product amount))
  (r : OrderRow amount) :
  validate_products env (map (@it_productId amount) (items dto)) = Replied products ->
  all_resolve products (@it_productId amount) (items dto) ->
  find_row (uuid env) (db w) = Some r ->
  create env dto w =
  (Throw (RpcException (ErrCaught (PrismaError UniqueConstraintViolation))),
   {| db := db w;
      trace := trace w ++ [SendValidateProducts (map (@it_productId amount) (items dto))]
                       ++ [StoreCall OpCreate None] |}).
Proof.
  intros Hv Hres Hr.
  unfold create, send_validate_products, order_create. run. rewrite Hv. run.
  rewrite reduce_resolved by exact Hres.
  rewrite rows_resolved by exact Hres. rewrite Hr. cbn.
  now rewrite <- app_assoc.
Qed.

Lemma create_paths {amount : Type} {N : JsNumber amount} (env : Env amount)
  (dto : CreateOrderDto amount) (w : World amount) : create_path env dto w.
Proof.
  destruct (validate_products env (map (@it_productId amount) (items dto)))
    as [products|e] eqn:Hv; [|now apply path_validator_failed with e].
  destruct (all_resolve_or_not products (@it_productId amount) (items dto)) as [Hres|Hmiss];
    [|now apply path_unresolved with products].
  destruct (find_row (uuid env) (db w)) as [r|] eqn:Hr.
  - now apply path_collision with products r.
  - now apply path_created with products.
Qed.

(** X1. Whatever makes [create] fail (the validator, a product missing
    from its reply, the store), the caller receives an [RpcException]
    that carries the error caught. *)
Theorem create_errors_are_wrapped {amount : Type} {N : JsNumber amount} (env : Env amount)
  (dto : CreateOrderDto amount) (w : World amount) (t : Thrown)
  (Hthrow : fst (create env dto w) = Throw t) :
  exists cause, t = RpcException (ErrCaught cause) /\
    (forall error, cause <> RpcException error).
Proof.
  revert Hthrow.
  destruct (create_paths env dto w) as [e Hv | products Hv Hmiss | products r Hv Hres Hr
                                        | products Hv Hres Hr].
  - rewrite (create_validator_failed env dto w e Hv). intros [= <-].
    eexists. split; [reflexivity | discriminate].
  - rewrite (create_unresolved env dto w products Hv Hmiss). intros [= <-].
    eexists. split; [reflexivity | discriminate].
  - rewrite (create_collision env dto w products r Hv Hres Hr). intros [= <-].
    eexists. split; [reflexivity | discriminate].
  - rewrite (create_resolved env dto w products Hv Hres Hr). discriminate.
Qed.

Lemma create_errors_are_wrapped_example :
  exists cause,
    RpcException (ErrCaught (RemoteError "validator unavailable"))
    = RpcException (ErrCaught cause) /\
    (forall error, cause <> RpcException error).
Proof.
  apply (@create_errors_are_wrapped Z _ (outage_env "order-2" 3000) dto_apples_bread
           world_one_order).
  reflexivity.
Defined.

(** X2. [create] writes all of an order or nothing: when it throws, the
    orders of the store are what they were; when it returns, the store
    holds one more row, at the end, under the identifier drawn for it,
    with the scalar fields and the items of the order returned. *)
Theorem create_all_or_nothing {amount : Type} {N : JsNumber amount} (env : Env amount)
  (dto : CreateOrderDto amount) (w : World amount) :
  (forall t, fst (create env dto w) = Throw t -> db (snd (create env dto w)) = db w) /\
  (forall order,
      fst (create env dto w) = Return order ->
      exists row,
        db (snd (create env dto w)) = db w ++ [row] /\
        find_row (uuid env) (db w) = None /\
        o_id (row_order row) = uuid env /\
        row_order row = owp_order order /\
        row_OrderItem row = map (@strip_name amount) (owp_OrderItem order) /\
        row_OrderReceipt row = None).
Proof.
  destruct (create_paths env dto w) as [e Hv | products Hv Hmiss | products r Hv Hres Hr
                                        | products Hv Hres Hr].
  - rewrite (create_validator_failed env dto w e Hv). split; [reflexivity | discriminate].
  - rewrite (create_unresolved env dto w products Hv Hmiss).
    split; [reflexivity | discriminate].
  - rewrite (create_collision env dto w products r Hv Hres Hr).
    split; [reflexivity | discriminate].
  - rewrite (create_resolved env dto w products Hv Hres Hr). split; [discriminate|].
    intros order [= <-]. exists (new_row env (create_input products dto)).
    cbn [fst snd db owp_order owp_OrderItem]. rewrite strip_named_items.
    repeat split. exact Hr.
Qed.

(** X3. When the validator fails, [create] gives up before touching the
    store: it throws the validator's error wrapped in an [RpcException],
    the orders are unchanged and no call to the store has been made. *)
Theorem create_stops_when_validator_fails {amount : Type} {N : JsNumber amount}
  (env : Env amount) (dto : CreateOrderDto amount) (w : World amount) (e : string)
  (Hfail : validate_products env (map (@it_productId amount) (items dto)) = Failed e) :
  fst (create env dto w) = Throw (RpcException (ErrCaught (RemoteError e))) /\
  db (snd (create env dto w)) = db w /\
  filter is_store_call (trace (snd (create env dto w))) = filter is_store_call (trace w).
Proof.
  rewrite (create_validator_failed env dto w e Hfail). cbn [fst snd db trace].
  repeat split. rewrite filter_app. cbn. now rewrite app_nil_r.
Qed.

Lemma create_stops_when_validator_fails_example :
  fst (create (outage_env "order-2" 3000) dto_apples_bread world_one_order)
  = Throw (RpcException (ErrCaught (RemoteError "validator unavailable"))) /\
  db (snd (create (outage_env "order-2" 3000) dto_apples_bread world_one_order))
  = db world_one_order /\
  filter is_store_call
    (trace (snd (create (outage_env "order-2" 3000) dto_apples_bread world_one_order)))
  = filter is_store_call (trace world_one_order).
Proof.
  apply (@create_stops_when_validator_fails Z _ (outage_env "order-2" 3000) dto_apples_bread
           world_one_order "validator unavailable").
  reflexivity.
Defined.

Lemma named_priced_items {amount : Type} {N : JsNumber amount}
  (products : list (Product amount)) (xs : list (OrderItemDto amount)) :
  map (named_item products) (map (priced_item products) xs) = map (created_item products) xs.
Proof. rewrite map_map. reflexivity. Qed.

Lemma priced_item_ids {amount : Type} {N : JsNumber amount}
  (products : list (Product amount)) (xs : list (OrderItemDto amount)) :
  map (@oi_productId amount) (map (priced_item products) xs) = map (@it_productId amount) xs.
Proof. rewrite map_map. reflexivity. Qed.

(** X4. When every product resolves, the order [create] returns lists
    the requested items in request order, each with the requested product
    and quantity and with the price and the name of the validator's
    reply; the calls made are one validation call followed by one store
    creation, and nothing else. *)
Theorem create_returns_named_items {amount : Type} {N : JsNumber amount} (env : Env amount)
  (dto : CreateOrderDto amount) (w : World amount) (products : list (Product amount))
  (Hreply : validate_products env (map (@it_productId amount) (items dto)) = Replied products)
  (Hresolve : all_resolve products (@it_productId amount) (items dto))
  (Hfresh : find_row (uuid env) (db w) = None) :
  exists order,
    fst (create env dto w) = Return order /\
    owp_OrderItem order = map (created_item products) (items dto) /\
    trace (snd (create env dto w)) =
    trace w ++ [SendValidateProducts (map (@it_productId amount) (items dto));
                StoreCall OpCreate None].
Proof.
  rewrite (create_resolved env dto w products Hreply Hresolve Hfresh).
  eexists. split; [reflexivity|]. cbn [owp_OrderItem snd trace].
  split; [apply named_priced_items | reflexivity].
Qed.

Lemma create_returns_named_items_example :
  exists order,
    fst (create (shop_env "order-1" 1000) dto_apples_bread (empty_world Z)) = Return order /\
    owp_OrderItem order =
    [ {| ni_price := 10; ni_quantity := 2; ni_productId := "A"; ni_name := "Apple" |};
      {| ni_price := 5; ni_quantity := 1; ni_productId := "B"; ni_name := "Bread" |} ].
Proof.
  destruct (@create_returns_named_items Z _ (shop_env "order-1" 1000) dto_apples_bread
              (empty_world Z) shop_products)
    as (order & Hret & Hitems & _).
  - reflexivity.
  - intros x [<- | [<- | []]]; discriminate.
  - reflexivity.
  - exists order. split; [exact Hret | exact Hitems].
Defined.

(** X5. An order just created can be looked up: with a validator that
    replies as it did to [create], [findOne] on the identifier of the new
    order returns exactly the order [create] returned. *)
Theorem create_then_findOne {amount : Type} {N : JsNumber amount} (env env' : Env amount)
  (dto : CreateOrderDto amount) (w : World amount) (order : OrderWithProducts amount)
  (Hcreated : fst (create env dto w) = Return order)
  (Hsame : validate_products env' (map (@it_productId amount) (items dto)) =
           validate_products env (map (@it_productId amount) (items dto))) :
  fst (findOne env' (o_id (owp_order order)) (snd (create env dto w))) = Return order.
Proof.
  revert Hcreated.
  destruct (create_paths env dto w) as [e Hv | products Hv Hmiss | products r Hv Hres Hr
                                        | products Hv Hres Hr].
  - rewrite (create_validator_failed env dto w e Hv). discriminate.
  - rewrite (create_unresolved env dto w products Hv Hmiss). discriminate.
  - rewrite (create_collision env dto w products r Hv Hres Hr). discriminate.
  - rewrite (create_resolved env dto w products Hv Hres Hr). cbn [fst snd].
    intros [= <-]. cbn [owp_order new_row row_order o_id].
    rewrite (findOne_found env' (uuid env) _ (new_row env (create_input products dto))).
    + cbn [fst new_row row_OrderItem create_input c_OrderItem_createMany row_order].
      rewrite priced_item_ids, Hsame, Hv.
      rewrite names_resolved by (apply all_resolve_priced; exact Hres).
      reflexivity.
    + cbn [db]. rewrite find_row_app, Hr. unfold find_row. cbn.
      now rewrite String.eqb_refl.
Qed.

Lemma create_then_findOne_example :
  exists order,
    fst (create (shop_env "order-1" 1000) dto_apples_bread (empty_world Z)) = Return order /\
    fst (findOne (shop_env "unused" 5000) "order-1" world_one_order) = Return order.
Proof.
  eexists. split; [reflexivity|].
  exact (@create_then_findOne Z _ (shop_env "order-1" 1000) (shop_env "unused" 5000)
           dto_apples_bread (empty_world Z) _ eq_refl eq_refl).
Defined.

(** ** findOne, on every path *)

Lemma names_unresolved {amount : Type} (products : list (Product amount))
  (xs : list (OrderItem amount)) :
  (exists x, In x xs /\ find_product products (oi_productId x) = None) ->
  map_throwing (with_name products) xs = Throw undefined_name.
Proof.
  induction xs as [|x xs IH]; intros (y & Hin & Hy); [destruct Hin|].
  cbn. unfold with_name at 1, name_of.
  destruct (find_product products (oi_productId x)) as [p|] eqn:E; [|reflexivity].
  destruct Hin as [-> | Hin]; [congruence|].
  rewrite IH; [reflexivity | now exists y].
Qed.

Lemma names_returned_resolve {amount : Type} (products : list (Product amount))
  (xs : list (OrderItem amount)) (named : list (NamedItem amount)) :
  map_throwing (with_name products) xs = Return named ->
  all_resolve products (@oi_productId amount) xs.
Proof.
  intros H.
  destruct (all_resolve_or_not products (@oi_productId amount) xs) as [Hres|Hmiss];
    [exact Hres|].
  rewrite (names_unresolved products xs Hmiss) in H. discriminate.
Qed.

(** X6. [findOne] returns an order exactly when the store holds a row
    under the identifier and the validator's reply has a product for each
    of its items; what it returns is then that row's order and items, each
    item with the name the reply gives for its product. *)
Theorem findOne_returns_stored_order {amount : Type} (env : Env amount) (id : string)
  (w : World amount) (order : OrderWithProducts amount) :
  fst (findOne env id w) = Return order <->
  exists r products,
    find_row id (db w) = Some r /\
    validate_products env (map (@oi_productId amount) (row_OrderItem r)) = Replied products /\
    all_resolve products (@oi_productId amount) (row_OrderItem r) /\
    order = {| owp_order := row_order r;
               owp_OrderItem := map (named_item products) (row_OrderItem r) |}.
Proof.
  split.
  - destruct (find_row id (db w)) as [r|] eqn:Hr;
      [|rewrite (findOne_missing env id w Hr); discriminate].
    rewrite (findOne_found env id w r Hr). cbn [fst].
    destruct (validate_products env _) as [products|e] eqn:Hv; [|discriminate].
    destruct (map_throwing (with_name products) (row_OrderItem r)) as [named|t] eqn:E;
      [|discriminate].
    intros [= <-]. exists r, products.
    split; [reflexivity|]. split; [exact Hv|]. split.
    + exact (names_returned_resolve products _ named E).
    + now rewrite (names_returned products _ _ E).
  - intros (r & products & Hr & Hv & Hres & ->).
    rewrite (findOne_found env id w r Hr). cbn [fst]. rewrite Hv.
    now rewrite names_resolved by exact Hres.
Qed.

(** X7. When the validator's reply lacks the product of one of a stored
    order's items, [findOne] throws the runtime's error on reading the
    name of [undefined]; the error is not an [RpcException], and the store
    is unchanged. *)
Theorem findOne_missing_product_throws {amount : Type} (env : Env amount) (id : string)
  (w : World amount) (r : OrderRow amount) (products : list (Product amount))
  (Hfound : find_row id (db w) = Some r)
  (Hreply : validate_products env (map (@oi_productId amount) (row_OrderItem r))
            = Replied products)
  (Hmissing : exists x, In x (row_OrderItem r) /\
                        find_product products (oi_productId x) = None) :
  fst (findOne env id w) = Throw undefined_name /\
  (forall error, undefined_name <> RpcException error) /\
  db (snd (findOne env id w)) = db w.
Proof.
  rewrite (findOne_found env id w r Hfound). cbn [fst snd db]. rewrite Hreply.
  rewrite (names_unresolved products _ Hmissing).
  repeat split. discriminate.
Qed.

Lemma findOne_missing_product_example :
  fst (findOne (fixed_env [ {| p_id := "A"; p_price := 10; p_name := "Apple" |} ] "unused" 5000)
         "order-1" world_one_order)
  = Throw undefined_name.
Proof.
  apply (@findOne_missing_product_throws Z
           (fixed_env [ {| p_id := "A"; p_price := 10; p_name := "Apple" |} ] "unused" 5000)
           "order-1" world_one_order
           (new_row (shop_env "order-1" 1000) (create_input shop_products dto_apples_bread))
           [ {| p_id := "A"; p_price := 10; p_name := "Apple" |} ]).
  - reflexivity.
  - reflexivity.
  - exists {| oi_price := 5; oi_quantity := 1; oi_productId := "B" |}.
    split; [right; left; reflexivity | reflexivity].
Defined.

(** X8. [findOne] only reads: whatever the store holds and whatever the
    validator replies, the orders are unchanged and no write call is
    made; the validator is called at most once, and only for an order
    that exists, with the product identifiers of its items. *)
Theorem findOne_only_reads {amount : Type} (env : Env amount) (id : string)
  (w : World amount) :
  db (snd (findOne env id w)) = db w /\
  store_writes (trace (snd (findOne env id w))) = store_writes (trace w) /\
  match find_row id (db w) with
  | Some r =>
      validation_calls (trace (snd (findOne env id w))) =
      validation_calls (trace w) ++ [map (@oi_productId amount) (row_OrderItem r)]
  | None =>
      validation_calls (trace (snd (findOne env id w))) = validation_calls (trace w)
  end.
Proof.
  destruct (find_row id (db w)) as [r|] eqn:Hr.
  - rewrite (findOne_found env id w r Hr). cbn [snd].
    fold (after_findOne id r w).
    split; [reflexivity|].
    split; [apply store_writes_after_findOne | apply validation_calls_after_findOne].
  - rewrite (findOne_missing env id w Hr). cbn [snd db trace].
    split; [reflexivity|]. unfold store_writes. rewrite filter_app, validation_calls_app.
    cbn. now rewrite !app_nil_r.
Qed.

(** ** findAll, page by page *)

Lemma firstn_plus {A : Type} (n m : nat) (l : list A) :
  firstn (n + m) l = firstn n l ++ firstn m (skipn n l).
Proof.
  revert l; induction n as [|n IH]; intros l; [reflexivity|].
  destruct l as [|x l]; cbn; [now rewrite firstn_nil | now rewrite IH].
Qed.

Lemma In_of_firstn {A : Type} (n : nat) (l : list A) (x : A) :
  In x (firstn n l) -> In x l.
Proof. intros H. rewrite <- (firstn_skipn n l). apply in_or_app. now left. Qed.

Lemma In_of_skipn {A : Type} (n : nat) (l : list A) (x : A) :
  In x (skipn n l) -> In x l.
Proof. intros H. rewrite <- (firstn_skipn n l). apply in_or_app. now right. Qed.

Lemma page_data_runs {amount : Type} (w : World amount) (st : option OrderStatus)
  (lim p : Z) :
  page_data w st lim p =
  map (@row_order amount)
    (firstn (Z.to_nat lim)
       (skipn (Z.to_nat ((p - 1) * lim)) (filter (matches_status st) (db w)))).
Proof. reflexivity. Qed.

(** Consecutive pages are consecutive chunks of the matching rows. *)
Lemma pages_from_chunk {amount : Type} (w : World amount) (st : option OrderStatus)
  (lim : Z) (count : nat) :
  1 <= lim ->
  forall first, 1 <= first ->
  pages_from w st lim first count =
  map (@row_order amount)
    (firstn (count * Z.to_nat lim)
       (skipn (Z.to_nat ((first - 1) * lim)) (filter (matches_status st) (db w)))).
Proof.
  intros Hlim. induction count as [|k IH]; intros first Hfirst; [reflexivity|].
  cbn [pages_from]. rewrite page_data_runs, IH by lia.
  rewrite <- map_app. f_equal.
  replace (S k * Z.to_nat lim)%nat with (Z.to_nat lim + k * Z.to_nat lim)%nat by lia.
  rewrite firstn_plus. f_equal. f_equal.
  rewrite skipn_skipn. f_equal.
  replace ((first + 1 - 1) * lim) with ((first - 1) * lim + lim) by lia.
  rewrite Z2Nat.inj_add by nia. lia.
Qed.

(** X9. The number of rows on a page: [limit], or what is left of the
    matching rows after the pages before it, or none. *)
Theorem findAll_page_size {amount : Type} (w : World amount) (dto : OrderPaginationDto)
  (Hpage : 1 <= page dto)
  (Hlimit : 1 <= limit dto) :
  let total := Z.of_nat (List.length (filter (matches_status (pg_status dto)) (db w))) in
  exists result,
    fst (findAll dto w) = Return result /\
    Z.of_nat (List.length (data result)) =
    Z.min (limit dto) (Z.max 0 (total - (page dto - 1) * limit dto)).
Proof.
  intros total. rewrite findAll_runs. eexists. split; [reflexivity|].
  cbn [data]. rewrite length_map, length_firstn, length_skipn. fold total.
  assert (Hskip : 0 <= (page dto - 1) * limit dto) by nia.
  unfold total. lia.
Qed.

Lemma findAll_page_size_example :
  exists result,
    fst (findAll {| page := 3; limit := 10; pg_status := None |} world_25_pending)
    = Return result /\
    Z.of_nat (List.length (data result)) = 5.
Proof.
  destruct (@findAll_page_size Z world_25_pending
              {| page := 3; limit := 10; pg_status := None |})
    as (result & Hret & Hlen).
  - cbn. lia.
  - cbn. lia.
  - exists result. split; [exact Hret | exact Hlen].
Defined.

(** X10. The pages tile the listing: the pages 1 to [lastPage], one after
    the other, are the matching orders of the store, each once and in the
    store's order. *)
Theorem findAll_pages_tile {amount : Type} (w : World amount) (st : option OrderStatus)
  (lim : Z)
  (Hlimit : 1 <= lim) :
  let total := Z.of_nat (List.length (filter (matches_status st) (db w))) in
  pages_from w st lim 1 (Z.to_nat (Math_ceil_div total lim)) =
  map (@row_order amount) (filter (matches_status st) (db w)).
Proof.
  intros total. rewrite pages_from_chunk by lia. cbn [Z.sub Z.mul Z.to_nat skipn].
  f_equal. apply firstn_all2.
  pose proof (Math_ceil_div_spec total lim ltac:(lia)) as Hceil.
  unfold total in *. nia.
Qed.

Lemma findAll_pages_tile_example :
  pages_from world_25_pending (Some PENDING) 10 1 3 =
  map (@row_order Z) (filter (matches_status (Some PENDING)) (db world_25_pending)).
Proof.
  apply (@findAll_pages_tile Z world_25_pending (Some PENDING) 10). lia.
Defined.

(** X11. Every order on a page is a stored order that passes the filter:
    with a status filter all orders of the page have that status. *)
Theorem findAll_lists_matching_orders {amount : Type} (w : World amount)
  (dto : OrderPaginationDto) :
  exists result,
    fst (findAll dto w) = Return result /\
    Forall (fun o =>
              (exists r, In r (db w) /\ row_order r = o) /\
              (forall s, pg_status dto = Some s -> status o = s))
      (data result).
Proof.
  rewrite findAll_runs. eexists. split; [reflexivity|]. cbn [data].
  apply Forall_forall. intros o Ho.
  apply in_map_iff in Ho as (r & <- & Hr).
  apply In_of_firstn, In_of_skipn, filter_In in Hr as [Hin Hmatch]. split.
  - now exists r.
  - intros s Hs. rewrite Hs in Hmatch. now apply OrderStatus_eqb_eq.
Qed.

(** ** changeStatus, on every path *)

Lemma changeStatus_missing {amount : Type} (env : Env amount) (dto : ChangeOrderStatusDto)
  (w : World amount) :
  find_row (cs_id dto) (db w) = None ->
  changeStatus env dto w =
  (Throw (not_found (cs_id dto)),
   {| db := db w; trace := trace w ++ [StoreCall OpFindFirst (Some (cs_id dto))] |}).
Proof.
  intros H. unfold changeStatus, bind. now rewrite (findOne_missing env (cs_id dto) w H).
Qed.

Lemma OrderStatus_eqb_refl (s : OrderStatus) : OrderStatus_eqb s s = true.
Proof. now destruct s. Qed.

(** [changeStatus] on a row that already has the requested status. *)
Lemma changeStatus_settled {amount : Type} (env : Env amount) (dto : ChangeOrderStatusDto)
  (w : World amount) (r : OrderRow amount) :
  find_row (cs_id dto) (db w) = Some r ->
  status (row_order r) = cs_status dto ->
  snd (changeStatus env dto w) = after_findOne (cs_id dto) r w.
Proof.
  intros Hr Hs. rewrite (changeStatus_found env dto w r Hr), Hs, OrderStatus_eqb_refl.
  now destruct (fst (findOne env (cs_id dto) w)).
Qed.

(** X12. For an identifier with no matching order, [changeStatus] throws
    the not-found error of [findOne]; it has read the store once, and has
    neither called the validator nor written. *)
Theorem changeStatus_not_found {amount : Type} (env : Env amount)
  (dto : ChangeOrderStatusDto) (w : World amount)
  (Hnone : find_row (cs_id dto) (db w) = None) :
  fst (changeStatus env dto w) = Throw (not_found (cs_id dto)) /\
  snd (changeStatus env dto w) =
  {| db := db w; trace := trace w ++ [StoreCall OpFindFirst (Some (cs_id dto))] |}.
Proof. rewrite (changeStatus_missing env dto w Hnone). split; reflexivity. Qed.

Lemma changeStatus_not_found_example :
  fst (changeStatus (shop_env "unused" 3000)
         {| cs_id := "order-9"; cs_status := DELIVERED |} world_one_order)
  = Throw (not_found "order-9") /\
  snd (changeStatus (shop_env "unused" 3000)
         {| cs_id := "order-9"; cs_status := DELIVERED |} world_one_order)
  = {| db := db world_one_order;
       trace := trace world_one_order ++ [StoreCall OpFindFirst (Some "order-9")] |}.
Proof.
  apply (@changeStatus_not_found Z (shop_env "unused" 3000)
           {| cs_id := "order-9"; cs_status := DELIVERED |} world_one_order).
  reflexivity.
Defined.

(** X13. When [changeStatus] throws, it has not written: the error is the
    one [findOne] threw, the orders are unchanged and no write call has
    been made. In particular a failing validator blocks the transition. *)
Theorem changeStatus_throws_before_writing {amount : Type} (env : Env amount)
  (dto : ChangeOrderStatusDto) (w : World amount) (t : Thrown)
  (Hthrow : fst (changeStatus env dto w) = Throw t) :
  fst (findOne env (cs_id dto) w) = Throw t /\
  db (snd (changeStatus env dto w)) = db w /\
  store_writes (trace (snd (changeStatus env dto w))) = store_writes (trace w).
Proof.
  revert Hthrow. destruct (find_row (cs_id dto) (db w)) as [r|] eqn:Hr.
  - rewrite (changeStatus_found env dto w r Hr).
    destruct (fst (findOne env (cs_id dto) w)) as [order|t'].
    + destruct (OrderStatus_eqb _ _); discriminate.
    + cbn [fst snd]. intros [= <-].
      split; [reflexivity|]. split; [reflexivity | apply store_writes_after_findOne].
  - rewrite (changeStatus_missing env dto w Hr), (findOne_missing env (cs_id dto) w Hr).
    cbn [fst snd db trace]. intros [= <-].
    split; [reflexivity|]. split; [reflexivity|].
    unfold store_writes. rewrite filter_app. cbn. now rewrite app_nil_r.
Qed.

Lemma changeStatus_throws_before_writing_example :
  db (snd (changeStatus (outage_env "unused" 3000)
             {| cs_id := "order-1"; cs_status := DELIVERED |} world_one_order))
  = db world_one_order.
Proof.
  apply (@changeStatus_throws_before_writing Z (outage_env "unused" 3000)
           {| cs_id := "order-1"; cs_status := DELIVERED |} world_one_order
           (RemoteError "validator unavailable")).
  reflexivity.
Defined.

(** The world a returning [changeStatus] leaves: the row under the
    identifier has the requested status and is otherwise the row found. *)
Lemma changeStatus_returned {amount : Type} (env : Env amount) (dto : ChangeOrderStatusDto)
  (w : World amount) (result : ChangeStatusResult amount) :
  fst (changeStatus env dto w) = Return result ->
  exists r,
    find_row (cs_id dto) (db w) = Some r /\
    find_row (cs_id dto) (db (snd (changeStatus env dto w)))
    = Some (apply_update (status_data (cs_status dto)) r).
Proof.
  destruct (find_row (cs_id dto) (db w)) as [r|] eqn:Hr;
    [|rewrite (changeStatus_missing env dto w Hr); discriminate].
  intros Hret. exists r. split; [reflexivity|]. revert Hret.
  rewrite (changeStatus_found env dto w r Hr).
  destruct (fst (findOne env (cs_id dto) w)) as [order|t]; [|discriminate].
  destruct (OrderStatus_eqb (status (row_order r)) (cs_status dto)) eqn:Eq; intros _.
  - apply OrderStatus_eqb_eq in Eq. cbn [snd db after_findOne]. rewrite Hr. f_equal.
    destruct r as [[id total count st pd pdAt charge created] its receipt].
    cbn in Eq. subst st. reflexivity.
  - cbn [snd db]. now apply update_row_found.
Qed.

(** X14. Once [changeStatus] has returned, asking for the same status
    again changes nothing: whatever the validator replies the second
    time, the orders are unchanged and no write call is made. *)
Theorem changeStatus_twice {amount : Type} (env env' : Env amount)
  (dto : ChangeOrderStatusDto) (w : World amount) (result : ChangeStatusResult amount)
  (Hfirst : fst (changeStatus env dto w) = Return result) :
  db (snd (changeStatus env' dto (snd (changeStatus env dto w)))) =
  db (snd (changeStatus env dto w)) /\
  store_writes (trace (snd (changeStatus env' dto (snd (changeStatus env dto w))))) =
  store_writes (trace (snd (changeStatus env dto w))).
Proof.
  destruct (changeStatus_returned env dto w result Hfirst) as (r & _ & Hr').
  rewrite (changeStatus_settled env' dto _ _ Hr' eq_refl).
  split; [reflexivity | apply store_writes_after_findOne].
Qed.

Lemma changeStatus_twice_example :
  db (snd (changeStatus (outage_env "unused" 4000)
             {| cs_id := "order-1"; cs_status := DELIVERED |}
             (snd (changeStatus (shop_env "unused" 3000)
                     {| cs_id := "order-1"; cs_status := DELIVERED |} world_one_order))))
  = db (snd (changeStatus (shop_env "unused" 3000)
               {| cs_id := "order-1"; cs_status := DELIVERED |} world_one_order)).
Proof.
  eapply (@changeStatus_twice Z (shop_env "unused" 3000) (outage_env "unused" 4000)
            {| cs_id := "order-1"; cs_status := DELIVERED |} world_one_order).
  reflexivity.
Defined.

(** X15. After [changeStatus] has returned, [findOne] shows the order
    with the requested status: given a validator that resolves the
    order's items, it returns the order found before with only the status
    replaced, and its items named. *)
Theorem changeStatus_then_findOne {amount : Type} (env env' : Env amount)
  (dto : ChangeOrderStatusDto) (w : World amount) (result : ChangeStatusResult amount)
  (r : OrderRow amount) (products : list (Product amount))
  (Hfound : find_row (cs_id dto) (db w) = Some r)
  (Hfirst : fst (changeStatus env dto w) = Return result)
  (Hreply : validate_products env' (map (@oi_productId amount) (row_OrderItem r))
            = Replied products)
  (Hresolve : all_resolve products (@oi_productId amount) (row_OrderItem r)) :
  fst (findOne env' (cs_id dto) (snd (changeStatus env dto w))) =
  Return {| owp_order := {| o_id := o_id (row_order r);
                            totalAmount := totalAmount (row_order r);
                            totalItems := totalItems (row_order r);
                            status := cs_status dto;
                            paid := paid (row_order r);
                            paidAt := paidAt (row_order r);
                            stripeChargeId := stripeChargeId (row_order r);
                            createdAt := createdAt (row_order r) |};
            owp_OrderItem := map (named_item products) (row_OrderItem r) |}.
Proof.
  destruct (changeStatus_returned env dto w result Hfirst) as (r0 & Hr0 & Hr').
  rewrite Hfound in Hr0. injection Hr0 as <-.
  rewrite (findOne_found env' (cs_id dto) _ _ Hr'). cbn [fst apply_update row_OrderItem].
  rewrite Hreply. now rewrite names_resolved by exact Hresolve.
Qed.

Lemma changeStatus_then_findOne_example :
  exists order,
    fst (findOne (shop_env "unused" 4000) "order-1"
           (snd (changeStatus (shop_env "unused" 3000)
                   {| cs_id := "order-1"; cs_status := DELIVERED |} world_one_order)))
    = Return order /\
    status (owp_order order) = DELIVERED.
Proof.
  eexists. split.
  - eapply (@changeStatus_then_findOne Z (shop_env "unused" 3000) (shop_env "unused" 4000)
              {| cs_id := "order-1"; cs_status := DELIVERED |} world_one_order _
              (new_row (shop_env "order-1" 1000) (create_input shop_products dto_apples_bread))
              shop_products).
    + reflexivity.
    + reflexivity.
    + reflexivity.
    + intros x [<- | [<- | []]]; discriminate.
  - reflexivity.
Defined.

(** ** paidOrder, on every path *)

(** X16. [paidOrder] makes one call, the update, and no remote call,
    whatever comes of it: what it adds to the trace is that one store
    call. When it throws, the error is the store's own (no row under the
    identifier, or a receipt already there), it is not wrapped in an
    [RpcException], and the orders are unchanged. *)
Theorem paidOrder_failures {amount : Type} (env : Env amount) (dto : PaidOrderDto)
  (w : World amount) :
  trace (snd (paidOrder env dto w)) = trace w ++ [StoreCall OpUpdate (Some (pd_orderId dto))] /\
  filter is_remote_call (trace (snd (paidOrder env dto w))) = filter is_remote_call (trace w) /\
  (forall t,
      fst (paidOrder env dto w) = Throw t ->
      db (snd (paidOrder env dto w)) = db w /\
      (forall error, t <> RpcException error) /\
      ((find_row (pd_orderId dto) (db w) = None /\ t = PrismaError RecordNotFound) \/
       (exists r receipt,
           find_row (pd_orderId dto) (db w) = Some r /\
           row_OrderReceipt r = Some receipt /\
           t = PrismaError RelationViolation))).
Proof.
  assert (Htrace : trace (snd (paidOrder env dto w))
                   = trace w ++ [StoreCall OpUpdate (Some (pd_orderId dto))]).
  { rewrite paidOrder_runs, order_update_runs.
    destruct (find_row (pd_orderId dto) (db w)) as [r|]; [|reflexivity].
    cbn [paid_data u_OrderReceipt_create]. now destruct (row_OrderReceipt r). }
  split; [exact Htrace|]. split.
  { rewrite Htrace, filter_app. cbn. now rewrite app_nil_r. }
  intros t. rewrite paidOrder_runs, order_update_runs.
  destruct (find_row (pd_orderId dto) (db w)) as [r|] eqn:Hr.
  - cbn [paid_data u_OrderReceipt_create].
    destruct (row_OrderReceipt r) as [receipt|] eqn:Er; [|discriminate].
    cbn [fst snd db trace]. intros [= <-].
    split; [reflexivity|]. split; [discriminate|].
    right. now exists r, receipt.
  - cbn [fst snd db trace]. intros [= <-].
    split; [reflexivity|]. split; [discriminate|]. now left.
Qed.

Lemma paidOrder_failures_example :
  trace (snd (paidOrder (shop_env "unused" 2000)
                {| pd_orderId := "order-1"; pd_stripePaymentId := "ch_1";
                   pd_receiptUrl := "https://pay/r1" |} world_one_order))
  = trace world_one_order ++ [StoreCall OpUpdate (Some "order-1")] /\
  db (snd (paidOrder (shop_env "unused" 2000)
             {| pd_orderId := "order-9"; pd_stripePaymentId := "ch_9";
                pd_receiptUrl := "https://pay/r9" |} world_one_order))
  = db world_one_order.
Proof.
  split.
  - apply (@paidOrder_failures Z (shop_env "unused" 2000)
             {| pd_orderId := "order-1"; pd_stripePaymentId := "ch_1";
                pd_receiptUrl := "https://pay/r1" |} world_one_order).
  - apply (proj2 (proj2 (@paidOrder_failures Z (shop_env "unused" 2000)
                           {| pd_orderId := "order-9"; pd_stripePaymentId := "ch_9";
                              pd_receiptUrl := "https://pay/r9" |} world_one_order))
             (PrismaError RecordNotFound)).
    reflexivity.
Defined.

(** The world a returning [paidOrder] leaves. *)
Lemma paidOrder_returned {amount : Type} (env : Env amount) (dto : PaidOrderDto)
  (w : World amount) (order : Order amount) :
  fst (paidOrder env dto w) = Return order ->
  exists r,
    find_row (pd_orderId dto) (db w) = Some r /\
    row_OrderReceipt r = None /\
    order = row_order (apply_update (paid_data (now env) dto) r) /\
    find_row (pd_orderId dto) (db (snd (paidOrder env dto w)))
    = Some (apply_update (paid_data (now env) dto) r).
Proof.
  intros Hret.
  destruct (paidOrder_all_or_nothing env dto w) as [(t & Ht & _) | (r & Hr & Hnone & Hfst & Hdb)];
    [congruence|].
  exists r. split; [exact Hr|]. split; [exact Hnone|]. split; [congruence|].
  rewrite Hdb. now apply update_row_found.
Qed.

(** X17. A second notification for an order [paidOrder] has finalized is
    refused: whatever reference and URL it carries, [paidOrder] throws
    the store's error and the orders stay as the first notification left
    them. *)
Theorem paidOrder_twice {amount : Type} (env env' : Env amount) (dto dto' : PaidOrderDto)
  (w : World amount) (order : Order amount)
  (Hfirst : fst (paidOrder env dto w) = Return order)
  (Hsame : pd_orderId dto' = pd_orderId dto) :
  fst (paidOrder env' dto' (snd (paidOrder env dto w))) = Throw (PrismaError RelationViolation) /\
  db (snd (paidOrder env' dto' (snd (paidOrder env dto w)))) = db (snd (paidOrder env dto w)).
Proof.
  destruct (paidOrder_returned env dto w order Hfirst) as (r & _ & _ & _ & Hr').
  rewrite (paidOrder_runs env' dto'), order_update_runs, Hsame, Hr'.
  split; reflexivity.
Qed.

Lemma paidOrder_twice_example :
  fst (paidOrder (shop_env "unused" 4000)
         {| pd_orderId := "order-1"; pd_stripePaymentId := "ch_2";
            pd_receiptUrl := "https://pay/r2" |} world_one_paid)
  = Throw (PrismaError RelationViolation) /\
  db (snd (paidOrder (shop_env "unused" 4000)
             {| pd_orderId := "order-1"; pd_stripePaymentId := "ch_2";
                pd_receiptUrl := "https://pay/r2" |} world_one_paid))
  = db world_one_paid.
Proof.
  eapply (@paidOrder_twice Z (shop_env "unused" 2000) (shop_env "unused" 4000)
            {| pd_orderId := "order-1"; pd_stripePaymentId := "ch_1";
               pd_receiptUrl := "https://pay/r1" |}
            {| pd_orderId := "order-1"; pd_stripePaymentId := "ch_2";
               pd_receiptUrl := "https://pay/r2" |} world_one_order).
  - reflexivity.
  - reflexivity.
Defined.

(** X18. After [paidOrder] has returned, [findOne] shows the payment:
    given a validator that resolves the order's items, it returns the
    order with status [PAID], the paid flag, the time and the reference
    of the payment, and the totals, creation time and items it had. *)
Theorem paidOrder_then_findOne {amount : Type} (env env' : Env amount) (dto : PaidOrderDto)
  (w : World amount) (order : Order amount) (r : OrderRow amount)
  (products : list (Product amount))
  (Hfound : find_row (pd_orderId dto) (db w) = Some r)
  (Hpaid : fst (paidOrder env dto w) = Return order)
  (Hreply : validate_products env' (map (@oi_productId amount) (row_OrderItem r))
            = Replied products)
  (Hresolve : all_resolve products (@oi_productId amount) (row_OrderItem r)) :
  fst (findOne env' (pd_orderId dto) (snd (paidOrder env dto w))) =
  Return {| owp_order := {| o_id := o_id (row_order r);
                            totalAmount := totalAmount (row_order r);
                            totalItems := totalItems (row_order r);
                            status := PAID;
                            paid := true;
                            paidAt := Some (now env);
                            stripeChargeId := Some (pd_stripePaymentId dto);
                            createdAt := createdAt (row_order r) |};
            owp_OrderItem := map (named_item products) (row_OrderItem r) |}.
Proof.
  destruct (paidOrder_returned env dto w order Hpaid) as (r0 & Hr0 & _ & _ & Hr').
  rewrite Hfound in Hr0. injection Hr0 as <-.
  rewrite (findOne_found env' (pd_orderId dto) _ _ Hr'). cbn [fst apply_update row_OrderItem].
  rewrite Hreply. now rewrite names_resolved by exact Hresolve.
Qed.

Lemma paidOrder_then_findOne_example :
  exists order,
    fst (findOne (shop_env "unused" 4000) "order-1" world_one_paid) = Return order /\
    status (owp_order order) = PAID /\
    paid (owp_order order) = true /\
    paidAt (owp_order order) = Some 2000.
Proof.
  eexists. split.
  - eapply (@paidOrder_then_findOne Z (shop_env "unused" 2000) (shop_env "unused" 4000)
              {| pd_orderId := "order-1"; pd_stripePaymentId := "ch_1";
                 pd_receiptUrl := "https://pay/r1" |} world_one_order _
              (new_row (shop_env "order-1" 1000) (create_input shop_products dto_apples_bread))
              shop_products).
    + reflexivity.
    + reflexivity.
    + reflexivity.
    + intros x [<- | [<- | []]]; discriminate.
  - repeat split.
Defined.

(** ** createPaymentSession *)

Lemma createPaymentSession_runs {amount : Type} (env : Env amount)
  (order : OrderWithProducts amount) (w : World amount) :
  createPaymentSession env order w =
  (match create_payment_session env (payment_request order) with
   | Replied session => Return session
   | Failed e => Throw (RpcException (ErrCaught (RemoteError e)))
   end,
   {| db := db w; trace := trace w ++ [SendCreatePaymentSession (payment_request order)] |}).
Proof.
  unfold createPaymentSession, send_create_payment_session. run.
  fold (payment_request order).
  now destruct (create_payment_session env (payment_request order)).
Qed.

(** X19. [createPaymentSession] sends the gateway one request, in US
    dollars, with the order's identifier and its items in order, each
    with its name, price and quantity; two orders that differ only in the
    product identifiers of their items send the same request. It hands
    back the gateway's session as it is, or throws the gateway's error
    wrapped in an [RpcException]; it never calls the store. *)
Theorem createPaymentSession_contract {amount : Type} (env : Env amount)
  (order : OrderWithProducts amount) (w : World amount) :
  snd (createPaymentSession env order w) =
    {| db := db w; trace := trace w ++ [SendCreatePaymentSession (payment_request order)] |} /\
  ps_orderId (payment_request order) = o_id (owp_order order) /\
  ps_currency (payment_request order) = "usd" /\
  map (fun item => (pi_name item, pi_price item, pi_quantity item))
    (ps_items (payment_request order)) =
  map (fun item => (ni_name item, ni_price item, ni_quantity item)) (owp_OrderItem order) /\
  (forall order' : OrderWithProducts amount,
      o_id (owp_order order') = o_id (owp_order order) ->
      map (fun item => (ni_name item, ni_price item, ni_quantity item)) (owp_OrderItem order') =
      map (fun item => (ni_name item, ni_price item, ni_quantity item)) (owp_OrderItem order) ->
      payment_request order' = payment_request order) /\
  (forall session,
      create_payment_session env (payment_request order) = Replied session ->
      fst (createPaymentSession env order w) = Return session) /\
  (forall e,
      create_payment_session env (payment_request order) = Failed e ->
      fst (createPaymentSession env order w) = Throw (RpcException (ErrCaught (RemoteError e)))).
Proof.
  rewrite createPaymentSession_runs. cbn [fst snd].
  split; [reflexivity|]. split; [reflexivity|]. split; [reflexivity|].
  split; [unfold payment_request; cbn [ps_items]; now rewrite map_map|]. split; [|split].
  - intros order' Hid Hitems. unfold payment_request. rewrite Hid. f_equal.
    revert Hitems. generalize (owp_OrderItem order). generalize (owp_OrderItem order').
    induction l as [|x xs IH]; intros [|y ys]; cbn; try discriminate; [reflexivity|].
    intros [= Hn Hp Hq Hrest]. rewrite Hn, Hp, Hq. f_equal. now apply IH.
  - now intros session ->.
  - now intros e ->.
Qed.

(** ** The service as a whole *)

Section Whole.

Context {amount : Type} {N : JsNumber amount}.

(** What a request can do to the table: nothing, append the row of a new
    order whose products all resolved, or update rows in place with the
    data of [changeStatus] or of [paidOrder]. *)
Lemma serve_db_shape (env : Env amount) (req : Request amount) (w : World amount) :
  db (serve env req w) = db w \/
  (exists products dto,
      all_resolve products (@it_productId amount) (items dto) /\
      db (serve env req w) = db w ++ [new_row env (create_input products dto)]) \/
  (exists id d,
      ((exists st, d = status_data st) \/ (exists time dto, d = paid_data time dto)) /\
      db (serve env req w) = update_row id (apply_update d) (db w)).
Proof.
  destruct req as [dto|dto|id|dto|order|dto]; cbn [serve].
  - destruct (create_paths env dto w) as [e Hv | products Hv Hmiss | products r Hv Hres Hr
                                          | products Hv Hres Hr].
    + rewrite (create_validator_failed env dto w e Hv). now left.
    + rewrite (create_unresolved env dto w products Hv Hmiss). now left.
    + rewrite (create_collision env dto w products r Hv Hres Hr). now left.
    + rewrite (create_resolved env dto w products Hv Hres Hr).
      right; left. now exists products, dto.
  - rewrite findAll_runs. now left.
  - rewrite findOne_keeps_db. now left.
  - destruct (changeStatus_db env dto w) as [-> | ->]; [now left|].
    right; right. exists (cs_id dto), (status_data (cs_status dto)).
    split; [left; now exists (cs_status dto) | reflexivity].
  - rewrite createPaymentSession_keeps_db. now left.
  - destruct (paidOrder_all_or_nothing env dto w) as [(t & _ & ->) | (r & _ & _ & _ & ->)];
      [now left|].
    right; right. exists (pd_orderId dto), (paid_data (now env) dto).
    split; [right; now exists (now env), dto | reflexivity].
Qed.

(** A property of rows that new orders have and that the two updates
    keep holds of every row of every reachable world. *)
Lemma reachable_rows (P : OrderRow amount -> Prop) :
  (forall env products dto,
      all_resolve products (@it_productId amount) (items dto) ->
      P (new_row env (create_input products dto))) ->
  (forall st r, P r -> P (apply_update (status_data st) r)) ->
  (forall time dto r, P r -> P (apply_update (paid_data time dto) r)) ->
  forall w, reachable w -> Forall P (db w).
Proof.
  intros Hnew Hstatus Hpaid w Hw.
  induction Hw as [|env req w _ IH]; [constructor|].
  destruct (serve_db_shape env req w)
    as [-> | [(products & dto & Hres & ->) | (id & d & Hd & ->)]].
  - exact IH.
  - apply Forall_app. split; [exact IH|]. constructor; [now apply Hnew | constructor].
  - apply update_row_Forall; [|exact IH].
    destruct Hd as [[st ->] | (time & dto & ->)]; auto.
Qed.

Lemma new_row_totals (env : Env amount) (products : list (Product amount))
  (dto : CreateOrderDto amount) :
  totals_consistent (new_row env (create_input products dto)).
Proof.
  unfold totals_consistent, create_input, spec_totalAmount, spec_totalItems.
  cbn [new_row row_order row_OrderItem totalAmount totalItems
       c_totalAmount c_totalItems c_OrderItem_createMany].
  now rewrite !map_map.
Qed.

Lemma new_row_payment (env : Env amount) (input : OrderCreateInput amount) :
  payment_recorded (new_row env input).
Proof. unfold payment_recorded; cbn. repeat split; congruence. Qed.

Lemma paid_update_payment (time : Z) (dto : PaidOrderDto) (r : OrderRow amount) :
  payment_recorded (apply_update (paid_data time dto) r).
Proof. unfold payment_recorded; cbn. repeat split; congruence. Qed.

Lemma reachable_world_one_paid : @reachable Z _ world_one_paid.
Proof.
  exact (reachable_step (shop_env "unused" 2000)
           (ReqPaidOrder {| pd_orderId := "order-1"; pd_stripePaymentId := "ch_1";
                            pd_receiptUrl := "https://pay/r1" |})
           (reachable_step (shop_env "order-1" 1000) (ReqCreate dto_apples_bread)
              reachable_start)).
Defined.

End Whole.

(** X20. In every world the service can reach, the totals of an order
    are those of its stored items: [totalAmount] is the sum, as [create]
    adds it up, of price times quantity over the items, and [totalItems]
    the sum of their quantities. No later request breaks this. *)
Theorem reachable_totals_consistent {amount : Type} {N : JsNumber amount} (w : World amount)
  (Hreach : reachable w) :
  Forall totals_consistent (db w).
Proof.
  revert w Hreach. apply reachable_rows.
  - intros env products dto _. apply new_row_totals.
  - intros st r H. exact H.
  - intros time dto r H. exact H.
Qed.

Lemma reachable_totals_consistent_example :
  Forall totals_consistent (db world_one_paid).
Proof.
  apply (@reachable_totals_consistent Z _ world_one_paid). exact reachable_world_one_paid.
Defined.

(** X21. In every world the service can reach, an order carries a
    payment time exactly when it is flagged paid, and a payment reference
    exactly when it is flagged paid. *)
Theorem reachable_payment_recorded {amount : Type} {N : JsNumber amount} (w : World amount)
  (Hreach : reachable w) :
  Forall payment_recorded (db w).
Proof.
  revert w Hreach. apply reachable_rows.
  - intros env products dto _. apply new_row_payment.
  - intros st r H. exact H.
  - intros time dto r _. apply paid_update_payment.
Qed.

Lemma reachable_payment_recorded_example :
  Forall payment_recorded (db world_one_paid).
Proof.
  apply (@reachable_payment_recorded Z _ world_one_paid). exact reachable_world_one_paid.
Defined.

(** ** What no request undoes *)

Lemma Forall2_trans {A : Type} (R : A -> A -> Prop) :
  (forall x y z, R x y -> R y z -> R x z) ->
  forall l1 l2 l3, Forall2 R l1 l2 -> Forall2 R l2 l3 -> Forall2 R l1 l3.
Proof.
  intros Htrans l1 l2 l3 H12. revert l3.
  induction H12 as [|x y l1 l2 Hxy _ IH]; intros l3 H23; inversion H23; subst;
    constructor; eauto.
Qed.

Lemma same_but_payment_refl {amount : Type} (r : OrderRow amount) : same_but_payment r r.
Proof. repeat split. Qed.

Lemma same_but_payment_trans {amount : Type} (x y z : OrderRow amount) :
  same_but_payment x y -> same_but_payment y z -> same_but_payment x z.
Proof.
  unfold same_but_payment. intros (a1 & a2 & a3 & a4 & a5) (b1 & b2 & b3 & b4 & b5).
  repeat split; congruence.
Qed.

Lemma same_but_payment_update {amount : Type} (d : OrderUpdateInput) (r : OrderRow amount) :
  same_but_payment r (apply_update d r).
Proof. repeat split. Qed.

(** One request keeps every row in its place, with its identifier,
    totals, creation time and items, and adds at most one row. *)
Lemma serve_keeps_orders {amount : Type} {N : JsNumber amount} (env : Env amount)
  (req : Request amount) (w : World amount) :
  exists kept added,
    db (serve env req w) = kept ++ added /\
    Forall2 same_but_payment (db w) kept /\
    (List.length added <= 1)%nat.
Proof.
  destruct (serve_db_shape env req w)
    as [-> | [(products & dto & _ & ->) | (id & d & _ & ->)]].
  - exists (db w), []. rewrite app_nil_r.
    split; [reflexivity|]. split; [|cbn; lia].
    apply Forall2_diag, same_but_payment_refl.
  - eexists (db w), [_]. split; [reflexivity|]. split; [|cbn; lia].
    apply Forall2_diag, same_but_payment_refl.
  - exists (update_row id (apply_update d) (db w)), []. rewrite app_nil_r.
    split; [reflexivity|]. split; [|cbn; lia].
    pose proof (update_row_pointwise same_but_payment id (apply_update d) (db w)
                  same_but_payment_refl (same_but_payment_update d)) as H.
    revert H. apply Forall2_impl. now intros x y [H _].
Qed.

(** X22. Nothing is deleted and nothing is repriced: after any sequence
    of requests, whatever the collaborators reply, the orders the store
    held are still there, in the same places, each with the identifier,
    totals, creation time and items (products, quantities, prices) it
    had; the rows added since are at most one per request. *)
Theorem serve_all_keeps_orders {amount : Type} {N : JsNumber amount}
  (steps : list (Env amount * Request amount)) (w : World amount) :
  exists kept added,
    db (serve_all steps w) = kept ++ added /\
    Forall2 same_but_payment (db w) kept /\
    (List.length added <= List.length steps)%nat.
Proof.
  revert w. induction steps as [|[env req] steps IH]; intros w; cbn [serve_all].
  - exists (db w), []. rewrite app_nil_r.
    split; [reflexivity|]. split; [|cbn; lia].
    apply Forall2_diag, same_but_payment_refl.
  - destruct (serve_keeps_orders env req w) as (kept1 & added1 & Hdb1 & Hkept1 & Hlen1).
    destruct (IH (serve env req w)) as (kept2 & added2 & Hdb2 & Hkept2 & Hlen2).
    rewrite Hdb1 in Hkept2.
    apply Forall2_app_inv_l in Hkept2 as (k2a & k2b & Ha & Hb & ->).
    exists k2a, (k2b ++ added2). split; [now rewrite Hdb2, app_assoc|]. split.
    + exact (Forall2_trans same_but_payment (@same_but_payment_trans amount)
               _ _ _ Hkept1 Ha).
    + apply Forall2_length in Hb. rewrite length_app. cbn [List.length]. lia.
Qed.

(** ** The calls a request makes *)

(** X23. A request only adds to the trace, and what it adds is small:
    at most one remote call, and at most one write to the store, which is
    then the last call of the request (so nothing can fail after the
    store has been written). *)
Theorem serve_calls_bounded {amount : Type} {N : JsNumber amount} (env : Env amount)
  (req : Request amount) (w : World amount) :
  exists events,
    trace (serve env req w) = trace w ++ events /\
    (List.length (filter is_remote_call events) <= 1)%nat /\
    (filter is_store_write events = [] \/
     exists before write,
       events = before ++ [write] /\
       is_store_write write = true /\
       filter is_store_write before = []).
Proof.
  destruct req as [dto|dto|id|dto|order|dto]; cbn [serve].
  - destruct (create_paths env dto w) as [e Hv | products Hv Hmiss | products r Hv Hres Hr
                                          | products Hv Hres Hr].
    + rewrite (create_validator_failed env dto w e Hv).
      eexists. split; [reflexivity|]. split; [cbn; lia | now left].
    + rewrite (create_unresolved env dto w products Hv Hmiss).
      eexists. split; [reflexivity|]. split; [cbn; lia | now left].
    + rewrite (create_collision env dto w products r Hv Hres Hr).
      eexists. split; [reflexivity|]. split; [cbn; lia|].
      right. eexists [_], _. repeat split.
    + rewrite (create_resolved env dto w products Hv Hres Hr).
      eexists. split; [reflexivity|]. split; [cbn; lia|].
      right. eexists [_], _. repeat split.
  - rewrite findAll_runs. cbn [snd trace]. rewrite <- app_assoc.
    eexists. split; [reflexivity|]. split; [cbn; lia | now left].
  - destruct (find_row id (db w)) as [r|] eqn:Hr.
    + rewrite (findOne_found env id w r Hr). cbn [snd trace]. rewrite <- app_assoc.
      eexists. split; [reflexivity|]. split; [cbn; lia | now left].
    + rewrite (findOne_missing env id w Hr).
      eexists. split; [reflexivity|]. split; [cbn; lia | now left].
  - destruct (find_row (cs_id dto) (db w)) as [r|] eqn:Hr.
    + rewrite (changeStatus_found env dto w r Hr).
      destruct (fst (findOne env (cs_id dto) w)) as [found|t];
        [destruct (OrderStatus_eqb (status (row_order r)) (cs_status dto))|];
        cbn [snd trace after_findOne]; rewrite <- ?app_assoc;
        (eexists; split; [reflexivity|]; split; [cbn; lia|]);
        try (now left).
      right. eexists [_; _], _. repeat split.
    + rewrite (changeStatus_missing env dto w Hr).
      eexists. split; [reflexivity|]. split; [cbn; lia | now left].
  - rewrite createPaymentSession_runs.
    eexists. split; [reflexivity|]. split; [cbn; lia | now left].
  - rewrite paidOrder_runs, order_update_runs.
    destruct (find_row (pd_orderId dto) (db w)) as [r|];
      [cbn [paid_data u_OrderReceipt_create]; destruct (row_OrderReceipt r)|];
      (eexists; split; [reflexivity|]; split; [cbn; lia|]);
      right; eexists [], _; repeat split.
Qed.
